(** * ScholarSearch front end: the search-session logic of [App.js]

    A shallow embedding of the logic of [src/frontend/src/App.js]: the two
    display helpers [formatAuthors] and [truncateAbstract], the request
    built by [handleSearch], and the asynchronous handlers [handleSearch],
    [loadSearchHistory] and [clearHistory] as an event-driven transition
    system over the component's state.

    JavaScript strings are sequences of UTF-16 code units; they are modelled
    as lists of code units, so that [length] is the [.length] of the source
    and [take]/[drop] are its [substring]/[slice]. *)

From Stdlib Require Import ZArith NArith String Ascii Lia ZifyBool.
From stdpp Require Import base option list gmap.

Local Open Scope Z_scope.

(** ** JavaScript values *)

Definition code_unit := N.
Definition js_string := list code_unit.

(** A string literal of the source, as its code units. *)
Definition lit (s : string) : js_string :=
  map N_of_ascii (list_ascii_of_string s).

(** A value that may be [undefined] or [null] (an optional field of a JSON
    record, or an expression such as [x || null]). *)
Inductive nullable (A : Type) : Type :=
| Undefined
| Null
| Val (a : A).
Arguments Undefined {A}.
Arguments Null {A}.
Arguments Val {A} a.

(** The Numbers that [parseInt] can return: NaN, an integer-valued double,
    or an infinity.  (The sign of zero is not modelled.) *)
Inductive number : Type :=
| NaN
| Num (z : Z)
| Infinity (negative : bool).

(** ** String primitives *)

(** WhiteSpace and LineTerminator code units, the set stripped by
    [String.prototype.trim] and skipped by [parseInt]. *)
Definition is_white_space (c : code_unit) : bool :=
  let c := Z.of_N c in
  (c =? 9) || (c =? 10) || (c =? 11) || (c =? 12) || (c =? 13) || (c =? 32)
  || (c =? 160) || (c =? 5760) || ((8192 <=? c) && (c <=? 8202))
  || (c =? 8232) || (c =? 8233) || (c =? 8239) || (c =? 8287)
  || (c =? 12288) || (c =? 65279).

Fixpoint trimStart (s : js_string) : js_string :=
  match s with
  | [] => []
  | c :: r => if is_white_space c then trimStart r else s
  end.

Definition trimEnd (s : js_string) : js_string :=
  reverse (trimStart (reverse s)).

(** [s.trim()] *)
Definition trim (s : js_string) : js_string := trimEnd (trimStart s).

(** [a.join(sep)] for an array of strings. *)
Fixpoint join (sep : js_string) (a : list js_string) : js_string :=
  match a with
  | [] => []
  | [x] => x
  | x :: r => x ++ sep ++ join sep r
  end.

(** [s.substring(0, n)]: the end index is clamped to [0 .. s.length]. *)
Definition substring0 (s : js_string) (n : Z) : js_string :=
  take (Z.to_nat n) s.

(** ** [parseInt] with no radix argument *)

Definition digit_value (c : code_unit) : option Z :=
  let c := Z.of_N c in
  if (48 <=? c) && (c <=? 57) then Some (c - 48)
  else if (97 <=? c) && (c <=? 122) then Some (c - 97 + 10)
  else if (65 <=? c) && (c <=? 90) then Some (c - 65 + 10)
  else None.

Definition radix_digit (R : Z) (c : code_unit) : option Z :=
  match digit_value c with
  | Some d => if d <? R then Some d else None
  | None => None
  end.

(** The longest prefix of radix-[R] digits, as digit values. *)
Fixpoint digits_prefix (R : Z) (s : js_string) : list Z :=
  match s with
  | [] => []
  | c :: r =>
      match radix_digit R c with
      | Some d => d :: digits_prefix R r
      | None => []
      end
  end.

Definition math_int (R : Z) (ds : list Z) : Z :=
  fold_left (fun acc d => acc * R + d) ds 0.

(** The double nearest to an integer (round to nearest, ties to even).
    Engines may also replace decimal digits after the twentieth by zeros
    before rounding; that freedom is not modelled. *)
Definition number_of_int (z : Z) : number :=
  let a := Z.abs z in
  if a <? 2 ^ 53 then Num z
  else
    let e := Z.log2 a - 52 in
    let q := Z.shiftr a e in
    let r := a - Z.shiftl q e in
    let half := Z.shiftl 1 (e - 1) in
    let q' := if (half <? r) || ((r =? half) && Z.odd q) then q + 1 else q in
    let v := Z.shiftl q' e in
    if 2 ^ 1024 <=? v then Infinity (z <? 0) else Num (Z.sgn z * v).

Definition parseInt (s : js_string) : number :=
  let str := trimStart s in
  let '(sign, str) :=
    match str with
    | c :: r =>
        if (c =? 45)%N then (-1, r)
        else if (c =? 43)%N then (1, r)
        else (1, str)
    | [] => (1, str)
    end in
  let '(R, str) :=
    match str with
    | c :: x :: r =>
        if (c =? 48)%N && ((x =? 120)%N || (x =? 88)%N) then (16, r)
        else (10, str)
    | _ => (10, str)
    end in
  match digits_prefix R str with
  | [] => NaN
  | ds => number_of_int (sign * math_int R ds)
  end.

(** ** Display helpers *)

(** [formatAuthors], lines 92-97. *)
Definition formatAuthors (authors : nullable (list js_string)) : js_string :=
  match authors with
  | Undefined | Null => lit "Unknown authors"
  | Val authors =>
      if (length authors =? 0)%nat then lit "Unknown authors"
      else if (length authors =? 1)%nat then
        match authors with a :: _ => a | [] => [] end
      else if (length authors =? 2)%nat then join (lit " and ") authors
      else join (lit ", ") (take 2 authors) ++ lit " et al."
  end.

(** [truncateAbstract], lines 99-102.  [!abstract] holds of [undefined],
    [null] and the empty string. *)
Definition truncateAbstract (abstract : nullable js_string) (maxLength : Z)
  : nullable js_string :=
  match abstract with
  | Undefined => Undefined
  | Null => Null
  | Val s =>
      if (length s =? 0)%nat || (Z.of_nat (length s) <=? maxLength)
      then Val s
      else Val (substring0 s maxLength ++ lit "...")
  end.

(** The default [maxLength = 300] of the source. *)
Definition truncateAbstract_default (abstract : nullable js_string)
  : nullable js_string :=
  truncateAbstract abstract 300.

(** ** Records exchanged with the backend *)

(** The payload [searchData] posted to [/api/search] (lines 59-66). *)
Module SearchData.
Record t : Type := Build {
  query : js_string;
  author : nullable js_string;
  venue : nullable js_string;
  year_from : nullable number;
  year_to : nullable number;
  limit : Z
}.
End SearchData.

(** A paper of [response.data.papers], with the fields the page reads. *)
Module Paper.
Record t : Type := Build {
  id : js_string;
  title : js_string;
  authors : nullable (list js_string);
  year : nullable Z;
  venue : nullable js_string;
  abstract : nullable js_string;
  citation_count : Z;
  doi : nullable js_string;
  url : nullable js_string;
  pdf_url : nullable js_string;
  source : js_string
}.
End Paper.

(** [response.data.query_info]. *)
Module QueryInfo.
Record t : Type := Build {
  query : js_string;
  author : nullable js_string;
  venue : nullable js_string;
  year_range : js_string
}.
End QueryInfo.

(** [response.data] of a successful search.  [query_info] is handed to
    [setQueryInfo] unchecked, so it may be [null] or absent.  (A reply whose
    [papers] is not an array makes the next render throw; such replies are
    outside this model.) *)
Module SearchResponse.
Record t : Type := Build {
  papers : list Paper.t;
  total_count : Z;
  query_info : nullable QueryInfo.t
}.
End SearchResponse.

(** An entry of the list returned by [GET /api/search/history]. *)
Module HistoryEntry.
Record t : Type := Build {
  id : js_string;
  query : js_string;
  result_count : Z;
  timestamp : js_string
}.
End HistoryEntry.

(** ** Component state

    The [useState] cells of [App] that the handlers read or write (the
    theme and the advanced-search toggle are presentation only). *)
Record state : Type := State {
  query : js_string;
  author : js_string;
  venue : js_string;
  yearFrom : js_string;
  yearTo : js_string;
  searchResults : list Paper.t;
  loading : bool;
  searchHistory : list HistoryEntry.t;
  totalCount : Z;
  queryInfo : nullable QueryInfo.t
}.

(** The state of a freshly mounted component. *)
Definition initial_state : state :=
  {| query := []; author := []; venue := []; yearFrom := []; yearTo := [];
     searchResults := []; loading := false; searchHistory := [];
     totalCount := 0; queryInfo := Null |}.

(** ** Effects

    What a handler does, statement by statement: it calls a state setter,
    writes to the console, raises an alert, or starts an HTTP request. *)
Inductive action : Type :=
| PreventDefault
| SetQuery (v : js_string)
| SetAuthor (v : js_string)
| SetVenue (v : js_string)
| SetYearFrom (v : js_string)
| SetYearTo (v : js_string)
| SetSearchResults (ps : list Paper.t)
| SetLoading (b : bool)
| SetSearchHistory (h : list HistoryEntry.t)
| SetTotalCount (n : Z)
| SetQueryInfo (q : nullable QueryInfo.t)
| ConsoleError (label : js_string)
| Alert (msg : js_string)
| AxiosPost (d : SearchData.t)
| AxiosGet
| AxiosDelete.

(** [x || null] for a string [x]: the empty string is falsy. *)
Definition or_null (x : js_string) : nullable js_string :=
  match x with
  | [] => Null
  | _ => Val x
  end.

(** [y ? parseInt(y) : null] for a string [y]. *)
Definition year_field (y : js_string) : nullable number :=
  match y with
  | [] => Null
  | _ => Val (parseInt y)
  end.

(** The object literal [searchData] of [handleSearch]. *)
Definition searchData (s : state) : SearchData.t :=
  {| SearchData.query := trim (query s);
     SearchData.author := or_null (trim (author s));
     SearchData.venue := or_null (trim (venue s));
     SearchData.year_from := year_field (yearFrom s);
     SearchData.year_to := year_field (yearTo s);
     SearchData.limit := 20 |}.

(** ** Handlers

    An [async] handler runs up to its first [await], and resumes when the
    awaited request settles.  Each segment is the list of its effects in
    program order; a settled request is [Some data] when the promise is
    fulfilled and [None] when it is rejected. *)

(** [loadSearchHistory], up to [await axios.get]. *)
Definition loadSearchHistory : list action := [AxiosGet].

(** [loadSearchHistory], after the [await]. *)
Definition loadSearchHistory_settled (r : option (list HistoryEntry.t))
  : list action :=
  match r with
  | Some data => [SetSearchHistory data]
  | None => [ConsoleError (lit "Error loading search history:")]
  end.

(** [handleSearch], up to [await axios.post]. *)
Definition handleSearch (s : state) : list action :=
  PreventDefault ::
  match trim (query s) with
  | [] => []
  | _ => [SetLoading true; AxiosPost (searchData s)]
  end.

(** [handleSearch], after the [await]: the rest of the [try] block or the
    [catch] block, then the [finally] block. *)
Definition handleSearch_settled (r : option SearchResponse.t) : list action :=
  match r with
  | Some data =>
      [SetSearchResults (SearchResponse.papers data);
       SetTotalCount (SearchResponse.total_count data);
       SetQueryInfo (SearchResponse.query_info data)]
      ++ loadSearchHistory
  | None =>
      [ConsoleError (lit "Search error:");
       Alert (lit "Search failed. Please try again.")]
  end
  ++ [SetLoading false].

(** [clearHistory], up to [await axios.delete]. *)
Definition clearHistory : list action := [AxiosDelete].

(** [clearHistory], after the [await]; the awaited [loadSearchHistory]
    never rejects, so nothing follows it. *)
Definition clearHistory_settled (ok : bool) : list action :=
  if ok then SetSearchHistory [] :: loadSearchHistory
  else [ConsoleError (lit "Error clearing history:")].

(** ** The running page *)

Inductive request : Type :=
| ReqSearch (d : SearchData.t)
| ReqHistory
| ReqDelete.

(** The component state, the requests awaiting a reply (by issue number),
    the next issue number, and every effect so far, oldest first. *)
Record world : Type := World {
  ui : state;
  inflight : gmap nat request;
  fresh : nat;
  trace : list action
}.

Definition initial_world : world :=
  {| ui := initial_state; inflight := ∅; fresh := 0%nat; trace := [] |}.

Definition set_state (a : action) (s : state) : state :=
  match a with
  | SetQuery v =>
      State v (author s) (venue s) (yearFrom s) (yearTo s) (searchResults s)
        (loading s) (searchHistory s) (totalCount s) (queryInfo s)
  | SetAuthor v =>
      State (query s) v (venue s) (yearFrom s) (yearTo s) (searchResults s)
        (loading s) (searchHistory s) (totalCount s) (queryInfo s)
  | SetVenue v =>
      State (query s) (author s) v (yearFrom s) (yearTo s) (searchResults s)
        (loading s) (searchHistory s) (totalCount s) (queryInfo s)
  | SetYearFrom v =>
      State (query s) (author s) (venue s) v (yearTo s) (searchResults s)
        (loading s) (searchHistory s) (totalCount s) (queryInfo s)
  | SetYearTo v =>
      State (query s) (author s) (venue s) (yearFrom s) v (searchResults s)
        (loading s) (searchHistory s) (totalCount s) (queryInfo s)
  | SetSearchResults ps =>
      State (query s) (author s) (venue s) (yearFrom s) (yearTo s) ps
        (loading s) (searchHistory s) (totalCount s) (queryInfo s)
  | SetLoading b =>
      State (query s) (author s) (venue s) (yearFrom s) (yearTo s)
        (searchResults s) b (searchHistory s) (totalCount s) (queryInfo s)
  | SetSearchHistory h =>
      State (query s) (author s) (venue s) (yearFrom s) (yearTo s)
        (searchResults s) (loading s) h (totalCount s) (queryInfo s)
  | SetTotalCount n =>
      State (query s) (author s) (venue s) (yearFrom s) (yearTo s)
        (searchResults s) (loading s) (searchHistory s) n (queryInfo s)
  | SetQueryInfo q =>
      State (query s) (author s) (venue s) (yearFrom s) (yearTo s)
        (searchResults s) (loading s) (searchHistory s) (totalCount s) q
  | _ => s
  end.

Definition issued (a : action) : option request :=
  match a with
  | AxiosPost d => Some (ReqSearch d)
  | AxiosGet => Some ReqHistory
  | AxiosDelete => Some ReqDelete
  | _ => None
  end.

(** One effect: setters update the state, a request is put in flight under
    the next issue number, and everything is appended to the trace. *)
Definition exec (w : world) (a : action) : world :=
  {| ui := set_state a (ui w);
     inflight :=
       match issued a with
       | Some r => <[fresh w := r]> (inflight w)
       | None => inflight w
       end;
     fresh := match issued a with Some _ => S (fresh w) | None => fresh w end;
     trace := trace w ++ [a] |}.

Definition run (acts : list action) (w : world) : world :=
  fold_left exec acts w.

(** The reply to request [i] has arrived: it is no longer in flight. *)
Definition settle (i : nat) (w : world) : world :=
  {| ui := ui w; inflight := delete i (inflight w);
     fresh := fresh w; trace := trace w |}.

(** What can happen to the page. *)
Inductive event : Type :=
| Mount
| Edit (a : action)
| Submit
| ClickClear
| SearchSettled (i : nat) (r : option SearchResponse.t)
| HistorySettled (i : nat) (r : option (list HistoryEntry.t))
| DeleteSettled (i : nat) (ok : bool).

Definition is_edit (a : action) : bool :=
  match a with
  | SetQuery _ | SetAuthor _ | SetVenue _ | SetYearFrom _ | SetYearTo _ => true
  | _ => false
  end.

(** A reply for a request that is not in flight (or of another kind) is
    not a reply to anything: the page does not react. *)
Definition step (w : world) (e : event) : world :=
  match e with
  | Mount => run loadSearchHistory w
  | Edit a => if is_edit a then run [a] w else w
  | Submit => run (handleSearch (ui w)) w
  | ClickClear => run clearHistory w
  | SearchSettled i r =>
      match inflight w !! i with
      | Some (ReqSearch _) => run (handleSearch_settled r) (settle i w)
      | _ => w
      end
  | HistorySettled i r =>
      match inflight w !! i with
      | Some ReqHistory => run (loadSearchHistory_settled r) (settle i w)
      | _ => w
      end
  | DeleteSettled i ok =>
      match inflight w !! i with
      | Some ReqDelete => run (clearHistory_settled ok) (settle i w)
      | _ => w
      end
  end.

Definition steps (w : world) (es : list event) : world :=
  fold_left step es w.

(** What the results pane shows: lines 235-346 read exactly these three
    cells (and [loading] for the empty-result notice). *)
Definition displayed (s : state) : list Paper.t * Z * nullable QueryInfo.t :=
  (searchResults s, totalCount s, queryInfo s).

(** [searchHistory.slice(0, n)]; the sidebar uses [n = 10]. *)
Definition display (n : nat) (s : state) : list HistoryEntry.t :=
  take n (searchHistory s).

(** The effects of the last step only. *)
Definition emitted (w w' : world) : list action :=
  drop (length (trace w)) (trace w').

(** A signal to the user or the developer: an alert or a console error. *)
Definition is_signal (a : action) : bool :=
  match a with
  | Alert _ | ConsoleError _ => true
  | _ => false
  end.

Definition is_request (a : action) : bool :=
  match issued a with Some _ => true | None => false end.

(** ** The submit button

    The button is rendered with [disabled={loading}] (line 156), so through
    the form a submission is only possible while [loading] is false;
    [handleSearch] itself does not look at [loading]. *)
Definition submit_enabled (s : state) : bool := negb (loading s).

(** A run in which every submission goes through the enabled button. *)
Fixpoint via_button (w : world) (es : list event) : bool :=
  match es with
  | [] => true
  | e :: es' =>
      match e with
      | Submit => submit_enabled (ui w)
      | _ => true
      end && via_button (step w e) es'
  end.

Definition search_in_flight (w : world) (i : nat) : Prop :=
  exists d : SearchData.t, inflight w !! i = Some (ReqSearch d).

(** At most one search is awaiting its reply, and [loading] is set while
    one is. *)
Definition one_search_at_a_time (w : world) : Prop :=
  (forall i j : nat, search_in_flight w i -> search_in_flight w j -> i = j)
  /\ (forall i : nat, search_in_flight w i -> loading (ui w) = true).

(** ** Decimal year strings *)

Definition is_dec_digit (c : code_unit) : bool :=
  ((48 <=? c) && (c <=? 57))%N.

(** The number a string of decimal digits denotes, by positional weight. *)
Fixpoint decimal (ds : js_string) : Z :=
  match ds with
  | [] => 0
  | c :: r => (Z.of_N c - 48) * 10 ^ Z.of_nat (length r) + decimal r
  end.

(** ** Observations on a step, and shapes of year fields *)

(** Does the step [e] raise an alert or a console error? *)
Definition raises_signal (w : world) (e : event) : bool :=
  existsb is_signal (emitted w (step w e)).

(** Does the step [e] start a request? *)
Definition sends_request (w : world) (e : event) : bool :=
  existsb is_request (emitted w (step w e)).

(** A year typed as one to fifteen decimal digits. *)
Definition is_year_digits (y : js_string) : bool :=
  negb (length y =? 0)%nat && forallb is_dec_digit y
  && (length y <=? 15)%nat.

(** A year field that starts with neither white space, a sign nor a
    decimal digit, such as "abc". *)
Definition is_non_numeric (y : js_string) : bool :=
  match y with
  | c :: _ =>
      negb (is_white_space c) && negb (c =? 45)%N && negb (c =? 43)%N
      && negb (is_dec_digit c)
  | [] => false
  end.

(** The query box holds three spaces. *)
Definition blank_query : world :=
  steps initial_world [Edit (SetQuery (lit "   "))].

(** The query is "ml", the first year is "abc" and the second "1800". *)
Definition odd_years : world :=
  steps initial_world
    [Edit (SetQuery (lit "ml")); Edit (SetYearFrom (lit "abc"));
     Edit (SetYearTo (lit "1800"))].

(** The query is "ml" and the years run from 2020 back to 2010. *)
Definition reversed_years : world :=
  steps initial_world
    [Edit (SetQuery (lit " ml ")); Edit (SetYearFrom (lit "2020"));
     Edit (SetYearTo (lit "2010"))].

(** ** More of [parseInt], and what the page renders *)

(** [parseInt] after white space and sign have been consumed: the optional
    [0x] prefix, the digits, and the conversion to a Number. *)
Definition parse_tail (sign : Z) (str : js_string) : number :=
  let '(R, str) :=
    match str with
    | c :: x :: r =>
        if (c =? 48)%N && ((x =? 120)%N || (x =? 88)%N) then (16, r)
        else (10, str)
    | _ => (10, str)
    end in
  match digits_prefix R str with
  | [] => NaN
  | ds => number_of_int (sign * math_int R ds)
  end.

(** Text that may follow the digits of a year without joining them: it is
    empty, or starts with something that is neither a decimal digit nor the
    [x] of a hexadecimal prefix (".5", "e3", " AD"). *)
Definition ends_number (rest : js_string) : bool :=
  match rest with
  | [] => true
  | c :: _ => negb (is_dec_digit c) && negb (c =? 120)%N && negb (c =? 88)%N
  end.

(** The five controlled inputs of the search form. *)
Definition form (s : state)
  : js_string * js_string * js_string * js_string * js_string :=
  (query s, author s, venue s, yearFrom s, yearTo s).

(** [queryInfo && ...] (line 235): the result header is rendered. *)
Definition shows_header (s : state) : bool :=
  match queryInfo s with
  | Val _ => true
  | _ => false
  end.

(** [searchResults.length > 0 && ...] (line 250): the paper cards. *)
Definition shows_results (s : state) : bool :=
  (0 <? length (searchResults s))%nat.

(** [searchResults.length === 0 && !loading && queryInfo] (line 340): the
    "No papers found" notice. *)
Definition shows_empty_notice (s : state) : bool :=
  (length (searchResults s) =? 0)%nat && negb (loading s) && shows_header s.

(** [paper.abstract && <p>{truncateAbstract(paper.abstract)}</p>] (lines
    289-293): the paragraph is rendered when the abstract is a non-empty
    string, and holds the truncated abstract. *)
Definition abstract_paragraph (p : Paper.t) : option (nullable js_string) :=
  match Paper.abstract p with
  | Val (_ :: _) => Some (truncateAbstract_default (Paper.abstract p))
  | _ => None
  end.

(** Clicking an entry of the sidebar (line 373): [setQuery(item.query)]. *)
Definition click_history (item : HistoryEntry.t) : event :=
  Edit (SetQuery (HistoryEntry.query item)).

(** ** Sample data and scenarios *)

Definition paperA : Paper.t :=
  {| Paper.id := lit "p1"; Paper.title := lit "Graph colouring";
     Paper.authors := Val [lit "A"; lit "B"; lit "C"];
     Paper.year := Val 2019; Paper.venue := Null; Paper.abstract := Null;
     Paper.citation_count := 3; Paper.doi := Null; Paper.url := Null;
     Paper.pdf_url := Null; Paper.source := lit "CrossRef" |}.

Definition paperB : Paper.t :=
  {| Paper.id := lit "p2"; Paper.title := lit "Balanced trees";
     Paper.authors := Val [lit "D"];
     Paper.year := Val 2021; Paper.venue := Null; Paper.abstract := Null;
     Paper.citation_count := 0; Paper.doi := Null; Paper.url := Null;
     Paper.pdf_url := Null; Paper.source := lit "Semantic Scholar" |}.

Definition info (q : string) : QueryInfo.t :=
  {| QueryInfo.query := lit q; QueryInfo.author := Null;
     QueryInfo.venue := Null; QueryInfo.year_range := lit "any-any" |}.

Definition respA : SearchResponse.t :=
  {| SearchResponse.papers := [paperA]; SearchResponse.total_count := 1;
     SearchResponse.query_info := Val (info "graphs") |}.

Definition respB : SearchResponse.t :=
  {| SearchResponse.papers := [paperB]; SearchResponse.total_count := 1;
     SearchResponse.query_info := Val (info "trees") |}.

Definition entry1 : HistoryEntry.t :=
  {| HistoryEntry.id := lit "h1"; HistoryEntry.query := lit "graphs";
     HistoryEntry.result_count := 1;
     HistoryEntry.timestamp := lit "2025-06-29T10:00:00" |}.

(** Request A ("graphs", number 0) and then request B ("trees", number 1)
    are issued; B's reply arrives while A is still in flight. *)
Definition race_events : list event :=
  [Edit (SetQuery (lit "graphs")); Submit;
   Edit (SetQuery (lit "trees")); Submit;
   SearchSettled 1 (Some respB)].

Definition race_B_replied : world := steps initial_world race_events.

(** A first search has succeeded and its history refresh has come back;
    a second search (number 2) is in flight. *)
Definition second_search_pending : world :=
  steps initial_world
    [Edit (SetQuery (lit "graphs")); Submit;
     SearchSettled 0 (Some respA); HistorySettled 1 (Some [entry1]);
     Edit (SetQuery (lit "trees")); Submit].

(** The history holds one entry and the user has clicked Clear: the
    delete request (number 1) is in flight. *)
Definition clear_pending : world :=
  steps initial_world
    [Mount; HistorySettled 0 (Some [entry1]); ClickClear].

(** The page has just been mounted: the first history fetch (number 0) is
    in flight. *)
Definition mount_pending : world := steps initial_world [Mount].

(** ** Invariants of the running page *)

(** Issue numbers not yet handed out are not in flight. *)
Definition fresh_ok (w : world) : Prop :=
  forall i : nat, (fresh w <= i)%nat -> inflight w !! i = None.

(** While [loading] is set, some search is awaiting its reply. *)
Definition busy_means_search (w : world) : Prop :=
  loading (ui w) = true -> exists i : nat, search_in_flight w i.

(** The page was mounted, the user clicked Clear before the first history
    fetch (number 0) came back, and the deletion (number 1) succeeded: the
    first fetch and the refresh after the deletion (number 2) are both in
    flight. *)
Definition two_refreshes_pending : world :=
  steps initial_world [Mount; ClickClear; DeleteSettled 1 true].

(** ** The theme

    The two [useEffect] hooks of [App] (lines 22-42) and the theme switch
    (lines 115-121).  The cell [darkMode], the browser's [localStorage] and
    the attributes of [document.body] are independent of the search state,
    so they are kept in a record of their own. *)
Module Theme.

Record page : Type := Page {
  darkMode : bool;
  localStorage : gmap (list N) (list N);
  body : gmap (list N) (list N)
}.

(** [localStorage.getItem("theme") === "dark"] (lines 24-25): a missing key
    reads as [null]. *)
Definition saved_is_dark (storage : gmap (list N) (list N)) : bool :=
  match storage !! lit "theme" with
  | Some v => bool_decide (v = lit "dark")
  | None => false
  end.

(** The second effect (lines 33-42), run after a render in which
    [darkMode] has changed (and after the first render). *)
Definition apply_theme (p : page) : page :=
  if darkMode p then
    {| darkMode := darkMode p;
       localStorage := <[lit "theme" := lit "dark"]> (localStorage p);
       body := <[lit "data-bs-theme" := lit "dark"]> (body p) |}
  else
    {| darkMode := darkMode p;
       localStorage := <[lit "theme" := lit "light"]> (localStorage p);
       body := delete (lit "data-bs-theme") (body p) |}.

(** Mounting the component.  The first render has [darkMode = false]; the
    effects then run in source order, so the first reads the saved theme
    before the second overwrites it; if the first called
    [setDarkMode(true)], the component renders again and the second effect
    runs once more. *)
Definition mount (storage attrs : gmap (list N) (list N)) : page :=
  let dark := saved_is_dark storage in
  let p1 := apply_theme
              {| darkMode := false; localStorage := storage; body := attrs |} in
  if dark then
    apply_theme {| darkMode := true; localStorage := localStorage p1;
                   body := body p1 |}
  else p1.

(** The switch: [setDarkMode(e.target.checked)]; the effect runs only when
    the value has changed. *)
Definition toggle (p : page) (checked : bool) : page :=
  if Bool.eqb checked (darkMode p) then p
  else apply_theme {| darkMode := checked; localStorage := localStorage p;
                      body := body p |}.

(** A visit: the page is mounted and the switch is used some times. *)
Definition visit (storage attrs : gmap (list N) (list N))
    (clicks : list bool) : page :=
  fold_left toggle clicks (mount storage attrs).

(** The stored theme and the body attribute agree with [darkMode]. *)
Definition consistent (p : page) : Prop :=
  localStorage p !! lit "theme"
  = Some (if darkMode p then lit "dark" else lit "light")
  /\ body p !! lit "data-bs-theme"
     = (if darkMode p then Some (lit "dark") else None).

End Theme.

(** ** A year field, read in words

    What [y ? parseInt(y) : null] amounts to, said without the digit loop
    of [parseInt]: skip white space, take one sign, then read the leading
    run of decimal digits by positional weight.  It is compared with
    [year_field] below. *)

Fixpoint leading_digits (s : js_string) : js_string :=
  match s with
  | c :: r => if is_dec_digit c then c :: leading_digits r else []
  | [] => []
  end.

(** The text after leading white space and one sign. *)
Definition unsigned_part (y : js_string) : js_string :=
  match trimStart y with
  | c :: r => if (c =? 45)%N || (c =? 43)%N then r else c :: r
  | [] => []
  end.

Definition sign_of (y : js_string) : Z :=
  match trimStart y with
  | c :: _ => if (c =? 45)%N then -1 else 1
  | [] => 1
  end.

(** The text starts with [0x] or [0X]. *)
Definition has_hex_prefix (u : js_string) : bool :=
  match u with
  | c :: x :: _ => (c =? 48)%N && ((x =? 120)%N || (x =? 88)%N)
  | _ => false
  end.

Definition year_as_described (y : js_string) : nullable number :=
  match y with
  | [] => Null
  | _ =>
      let u := unsigned_part y in
      if has_hex_prefix u then
        Val match digits_prefix 16 (drop 2 u) with
            | [] => NaN
            | ds => number_of_int (sign_of y * math_int 16 ds)
            end
      else
        Val match leading_digits u with
            | [] => NaN
            | ds => number_of_int (sign_of y * decimal ds)
            end
  end.

(** A year of [searchData] as it stands in the JSON body that [axios.post]
    sends: [JSON.stringify] writes NaN and the infinities as [null]. *)
Definition json_year (v : nullable number) : nullable Z :=
  match v with
  | Val (Num z) => Val z
  | Undefined => Undefined
  | _ => Null
  end.

(** The event is the reply to history fetch number [k]. *)
Definition is_history_reply_to (k : nat) (e : event) : bool :=
  match e with
  | HistorySettled j _ => (j =? k)%nat
  | _ => false
  end.

(** A fulfilled search reply carries a query info. *)
Definition reply_has_info (e : event) : bool :=
  match e with
  | SearchSettled _ (Some data) =>
      match SearchResponse.query_info data with
      | Val _ => true
      | _ => false
      end
  | _ => true
  end.

(** * Properties of the string primitives *)

Example formatAuthors_abc :
  formatAuthors (Val [lit "A"; lit "B"; lit "C"]) = lit "A, B et al.".
Proof. reflexivity. Qed.

Example parseInt_abc : parseInt (lit "abc") = NaN.
Proof. reflexivity. Qed.

Example parseInt_2018 : parseInt (lit " 2018.5") = Num 2018.
Proof. reflexivity. Qed.

Example parseInt_hex : parseInt (lit "-0x1F") = Num (-31).
Proof. reflexivity. Qed.

Example parseInt_rounds :
  parseInt (lit "9007199254740993") = Num 9007199254740992
  /\ parseInt (lit "9007199254740995") = Num 9007199254740996.
Proof. split; reflexivity. Qed.

Example trim_blank : trim (lit "   ") = [].
Proof. reflexivity. Qed.

Example trim_inner : trim (lit "  a b  ") = lit "a b".
Proof. reflexivity. Qed.

Section Digits.

Lemma is_dec_digit_range (c : code_unit) :
  is_dec_digit c = true -> 48 <= Z.of_N c <= 57.
Proof. unfold is_dec_digit. lia. Qed.

Lemma dec_digit_not_space (c : code_unit) :
  is_dec_digit c = true -> is_white_space c = false.
Proof.
  intros H%is_dec_digit_range. unfold is_white_space. lia.
Qed.

Lemma dec_digit_radix (c : code_unit) :
  is_dec_digit c = true -> radix_digit 10 c = Some (Z.of_N c - 48).
Proof.
  intros H%is_dec_digit_range. unfold radix_digit, digit_value.
  replace ((48 <=? Z.of_N c) && (Z.of_N c <=? 57)) with true by lia.
  replace (Z.of_N c - 48 <? 10) with true by lia. reflexivity.
Qed.

Lemma digits_prefix_decimal (ds : js_string) :
  Forall (fun c => is_dec_digit c = true) ds ->
  digits_prefix 10 ds = map (fun c => Z.of_N c - 48) ds.
Proof.
  induction 1 as [|c r Hc _ IH]; simpl; [reflexivity|].
  rewrite (dec_digit_radix c Hc), IH. reflexivity.
Qed.

Lemma decimal_bounds (ds : js_string) :
  Forall (fun c => is_dec_digit c = true) ds ->
  0 <= decimal ds < 10 ^ Z.of_nat (length ds).
Proof.
  induction 1 as [|c r Hc%is_dec_digit_range _ IH]; simpl decimal.
  - simpl. lia.
  - rewrite length_cons, Nat2Z.inj_succ, Z.pow_succ_r by lia.
    nia.
Qed.

Lemma math_int_decimal (ds : js_string) (acc : Z) :
  fold_left (fun a d => a * 10 + d) (map (fun c => Z.of_N c - 48) ds) acc
  = acc * 10 ^ Z.of_nat (length ds) + decimal ds.
Proof.
  revert acc. induction ds as [|c r IH]; intros acc; simpl fold_left.
  - simpl. lia.
  - rewrite IH. simpl decimal.
    rewrite length_cons, Nat2Z.inj_succ, Z.pow_succ_r by lia. ring.
Qed.

(** [parseInt] of one to fifteen decimal digits is the number they denote:
    nothing is rounded or clamped. *)
Lemma parseInt_decimal (ds : js_string) :
  ds <> [] ->
  Forall (fun c => is_dec_digit c = true) ds ->
  (length ds <= 15)%nat ->
  parseInt ds = Num (decimal ds).
Proof.
  intros Hne Hall Hlen.
  pose proof (decimal_bounds ds Hall) as Hb.
  assert (Hpow : 10 ^ Z.of_nat (length ds) <= 10 ^ 15)
    by (apply Z.pow_le_mono_r; lia).
  assert (Hsmall : (Z.abs (decimal ds) <? 2 ^ 53) = true).
  { apply Z.ltb_lt. change (2 ^ 53) with 9007199254740992.
    change (10 ^ 15) with 1000000000000000 in Hpow. lia. }
  destruct ds as [|c r]; [congruence|].
  pose proof (Forall_inv Hall) as Hc.
  pose proof (is_dec_digit_range c Hc) as Hr.
  assert (Hds : digits_prefix 10 (c :: r)
                = map (fun c0 => Z.of_N c0 - 48) (c :: r))
    by (apply digits_prefix_decimal; exact Hall).
  unfold parseInt. simpl trimStart.
  rewrite (dec_digit_not_space c Hc).
  replace (c =? 45)%N with false by lia.
  replace (c =? 43)%N with false by lia.
  cbv iota beta.
  assert (Hnum :
    match digits_prefix 10 (c :: r) with
    | [] => NaN
    | d :: ds' => number_of_int (1 * math_int 10 (d :: ds'))
    end = Num (decimal (c :: r))).
  { rewrite Hds. simpl map. unfold math_int.
    change (fold_left (fun a d => a * 10 + d)
              (Z.of_N c - 48 :: map (fun c0 => Z.of_N c0 - 48) r) 0)
      with (fold_left (fun a d => a * 10 + d)
              (map (fun c0 => Z.of_N c0 - 48) (c :: r)) 0).
    rewrite math_int_decimal, Z.mul_0_l, Z.add_0_l, Z.mul_1_l.
    unfold number_of_int. rewrite Hsmall. reflexivity. }
  destruct r as [|x r0]; [exact Hnum|].
  pose proof (is_dec_digit_range x (Forall_inv (Forall_inv_tail Hall))).
  replace ((x =? 120)%N || (x =? 88)%N) with false by lia.
  rewrite andb_false_r. exact Hnum.
Qed.

End Digits.

(** * The display helpers *)

(** C3: [formatAuthors] of an empty list is "Unknown authors", of one name
    is that name, of two names A and B is "A and B", and of three or more
    is the first two names joined by ", " followed by " et al.". *)
Theorem formatAuthors_cases :
  formatAuthors (Val []) = lit "Unknown authors"
  /\ (forall a, formatAuthors (Val [a]) = a)
  /\ (forall a b, formatAuthors (Val [a; b]) = a ++ lit " and " ++ b)
  /\ (forall a b c rest,
        formatAuthors (Val (a :: b :: c :: rest))
        = a ++ lit ", " ++ b ++ lit " et al.")
  /\ formatAuthors (Val [lit "A"; lit "B"; lit "C"]) = lit "A, B et al.".
Proof.
  repeat split.
  intros a b c rest. unfold formatAuthors. simpl.
  rewrite <- !app_assoc. reflexivity.
Qed.

Section Truncate.

Lemma length_dots : length (lit "...") = 3%nat.
Proof. reflexivity. Qed.

Lemma substring0_long (s : js_string) (m : Z) :
  s <> [] -> (Z.of_nat (length s) <=? m) = false ->
  length (substring0 s m) = Z.to_nat m
  /\ (Z.to_nat m < length s)%nat.
Proof.
  intros Hne Hlt. unfold substring0. rewrite length_take.
  assert (0 < length s)%nat by (destruct s; [congruence | simpl; lia]).
  lia.
Qed.

(** C4: with the default limit of 300, an abstract of at most 300 code
    units is returned unchanged; a longer one becomes 303 code units, the
    first 300 of the input followed by three full stops; an absent
    abstract ([null] or [undefined]) is returned as it is. *)
Theorem truncateAbstract_spec :
  (forall s, (length s <= 300)%nat ->
     truncateAbstract_default (Val s) = Val s)
  /\ (forall s, (300 < length s)%nat ->
        exists r, truncateAbstract_default (Val s) = Val r
                  /\ length r = 303%nat
                  /\ take 300 r = take 300 s
                  /\ drop 300 r = lit "...")
  /\ truncateAbstract_default Null = Null
  /\ truncateAbstract_default Undefined = Undefined.
Proof.
  split; [|split; [|split; reflexivity]].
  - intros s Hs. unfold truncateAbstract_default, truncateAbstract.
    replace (Z.of_nat (length s) <=? 300) with true by lia.
    rewrite orb_true_r. reflexivity.
  - intros s Hs. unfold truncateAbstract_default, truncateAbstract.
    replace (length s =? 0)%nat with false by lia.
    replace (Z.of_nat (length s) <=? 300) with false by lia.
    simpl orb. cbv iota.
    exists (substring0 s 300 ++ lit "..."). split; [reflexivity|].
    assert (Hl : length (take 300 s) = 300%nat)
      by (rewrite length_take; lia).
    change (substring0 s 300) with (take 300 s).
    split; [|split].
    + rewrite length_app, Hl. reflexivity.
    + rewrite take_app_le by lia. apply take_take.
    + rewrite drop_app_length'; [reflexivity | symmetry; exact Hl].
Qed.

Lemma truncateAbstract_spec_witness :
  truncateAbstract_default (Val (lit "short")) = Val (lit "short")
  /\ exists r,
       truncateAbstract_default (Val (replicate 301 97%N)) = Val r
       /\ length r = 303%nat
       /\ take 300 r = take 300 (replicate 301 97%N)
       /\ drop 300 r = lit "...".
Proof.
  destruct truncateAbstract_spec as (H1 & H2 & _).
  split; [apply H1 | apply H2]; vm_compute; lia.
Defined.

(** C5: truncating is idempotent, for every abstract and every limit:
    [truncateAbstract (truncateAbstract x)] is [truncateAbstract x]. *)
Theorem truncateAbstract_idempotent :
  forall (x : nullable js_string) (m : Z),
    truncateAbstract (truncateAbstract x m) m = truncateAbstract x m.
Proof.
  intros [| |s] m; try reflexivity.
  change (truncateAbstract (Val s) m)
    with (if (length s =? 0)%nat || (Z.of_nat (length s) <=? m)
          then Val s else Val (substring0 s m ++ lit "...")).
  destruct ((length s =? 0)%nat || (Z.of_nat (length s) <=? m)) eqn:E.
  - unfold truncateAbstract. rewrite E. reflexivity.
  - apply orb_false_elim in E as [E0 Em].
    assert (Hne : s <> []) by (intros ->; discriminate).
    destruct (substring0_long s m Hne Em) as [Hl Hlt].
    unfold truncateAbstract.
    rewrite length_app, Hl, length_dots.
    replace (Z.to_nat m + 3 =? 0)%nat with false by (clear; lia).
    replace (Z.of_nat (Z.to_nat m + 3) <=? m) with false by (clear; lia).
    simpl orb. cbv iota. do 2 f_equal.
    unfold substring0 in *.
    rewrite take_app_le by lia. rewrite take_take, Nat.min_id. reflexivity.
Qed.

End Truncate.

(** * The handlers *)

Section Runs.

Lemma trace_run (acts : list action) (w : world) :
trace (run acts w) = trace w ++ acts.
Proof.
revert w. induction acts as [|a acts IH]; intros w.
- simpl. rewrite app_nil_r. reflexivity.
- change (run (a :: acts) w) with (run acts (exec w a)).
  rewrite IH. simpl. rewrite <- app_assoc. reflexivity.
Qed.

Lemma emitted_run (acts : list action) (w : world) :
emitted w (run acts w) = acts.
Proof. unfold emitted. rewrite trace_run. apply drop_app_length. Qed.

Lemma emitted_settle (acts : list action) (i : nat) (w : world) :
emitted w (run acts (settle i w)) = acts.
Proof. apply (emitted_run acts (settle i w)). Qed.

Lemma step_search_settled (w : world) (i : nat) (d : SearchData.t)
  (r : option SearchResponse.t) :
inflight w !! i = Some (ReqSearch d) ->
step w (SearchSettled i r) = run (handleSearch_settled r) (settle i w).
Proof. intros H. unfold step. rewrite H. reflexivity. Qed.

Lemma step_history_settled (w : world) (i : nat)
  (r : option (list HistoryEntry.t)) :
inflight w !! i = Some ReqHistory ->
step w (HistorySettled i r) = run (loadSearchHistory_settled r) (settle i w).
Proof. intros H. unfold step. rewrite H. reflexivity. Qed.

Lemma step_delete_settled (w : world) (i : nat) (ok : bool) :
inflight w !! i = Some ReqDelete ->
step w (DeleteSettled i ok) = run (clearHistory_settled ok) (settle i w).
Proof. intros H. unfold step. rewrite H. reflexivity. Qed.

Lemma handleSearch_nonblank (s : state) :
trim (query s) <> [] ->
handleSearch s = [PreventDefault; SetLoading true; AxiosPost (searchData s)].
Proof.
intros H. unfold handleSearch.
destruct (trim (query s)); [congruence | reflexivity].
Qed.

End Runs.

(** ** Submissions through the form do not overlap *)

Section Button.

Lemma no_new_search (w w' : world) :
  (forall i : nat, search_in_flight w' i -> search_in_flight w i) ->
  loading (ui w') = loading (ui w) ->
  one_search_at_a_time w -> one_search_at_a_time w'.
Proof.
  intros Hsub Hl [Huniq Hload]. split.
  - intros i j Hi Hj. apply Huniq; apply Hsub; assumption.
  - intros i Hi. rewrite Hl. apply (Hload i), Hsub, Hi.
Qed.

Lemma no_search_left (w' : world) :
  (forall i : nat, ~ search_in_flight w' i) -> one_search_at_a_time w'.
Proof.
  intros Hnone. split.
  - intros i j Hi _. destruct (Hnone i Hi).
  - intros i Hi. destruct (Hnone i Hi).
Qed.

Lemma step_one_search (w : world) (e : event) :
  one_search_at_a_time w ->
  (e = Submit -> submit_enabled (ui w) = true) ->
  one_search_at_a_time (step w e).
Proof.
  intros Hinv Hbtn. pose proof Hinv as [Huniq Hload].
  destruct e as [|a| | |i r|i r|i ok]; unfold step.
  - (* Mount *)
    apply (no_new_search w); [|reflexivity|exact Hinv].
    intros j [d Hj]. simpl in Hj.
    apply lookup_insert_Some in Hj as [[_ ?]|[_ Hj]]; [discriminate|].
    exists d. exact Hj.
  - (* Edit *)
    destruct (is_edit a) eqn:Ea; [|exact Hinv].
    apply (no_new_search w); [| |exact Hinv].
    + intros j [d Hj]. exists d. destruct a; try discriminate; exact Hj.
    + destruct a; try discriminate; reflexivity.
  - (* Submit *)
    specialize (Hbtn eq_refl). unfold submit_enabled in Hbtn.
    apply negb_true_iff in Hbtn.
    assert (Hidle : forall j, ~ search_in_flight w j)
      by (intros j Hj; rewrite (Hload j Hj) in Hbtn; discriminate).
    unfold handleSearch. destruct (trim (query (ui w))) as [|c q].
    + apply (no_new_search w); [|reflexivity|exact Hinv].
      intros j Hj. exact Hj.
    + assert (Honly : forall j, search_in_flight
                        (run [PreventDefault; SetLoading true;
                              AxiosPost (searchData (ui w))] w) j ->
                      j = fresh w).
      { intros j [d Hj]. simpl in Hj.
        apply lookup_insert_Some in Hj as [[Hj _]|[_ Hj]]; [congruence|].
        destruct (Hidle j). exists d. exact Hj. }
      split.
      * intros j k Hj Hk. rewrite (Honly j Hj), (Honly k Hk). reflexivity.
      * intros j _. reflexivity.
  - (* ClickClear *)
    apply (no_new_search w); [|reflexivity|exact Hinv].
    intros j [d Hj]. simpl in Hj.
    apply lookup_insert_Some in Hj as [[_ ?]|[_ Hj]]; [discriminate|].
    exists d. exact Hj.
  - (* SearchSettled *)
    destruct (inflight w !! i) as [[d| |]|] eqn:Ei; try exact Hinv.
    apply no_search_left. intros j [d' Hj].
    assert (Hold : j <> i /\ inflight w !! j = Some (ReqSearch d')).
    { destruct r as [data|]; simpl in Hj.
      - apply lookup_insert_Some in Hj as [[_ ?]|[_ Hj]]; [discriminate|].
        apply lookup_delete_Some in Hj as [? ?]. split; congruence.
      - apply lookup_delete_Some in Hj as [? ?]. split; congruence. }
    destruct Hold as [Hne Hj']. apply Hne.
    apply Huniq; [exists d'; exact Hj' | exists d; exact Ei].
  - (* HistorySettled *)
    destruct (inflight w !! i) as [[d| |]|] eqn:Ei; try exact Hinv.
    apply (no_new_search w); [| |exact Hinv].
    + intros j [d Hj]. exists d.
      destruct r as [h|]; simpl in Hj;
        apply lookup_delete_Some in Hj as [_ Hj]; exact Hj.
    + destruct r; reflexivity.
  - (* DeleteSettled *)
    destruct (inflight w !! i) as [[d| |]|] eqn:Ei; try exact Hinv.
    apply (no_new_search w); [| |exact Hinv].
    + intros j [d Hj]. exists d. destruct ok; simpl in Hj.
      * apply lookup_insert_Some in Hj as [[_ ?]|[_ Hj]]; [discriminate|].
        apply lookup_delete_Some in Hj as [_ Hj]. exact Hj.
      * apply lookup_delete_Some in Hj as [_ Hj]. exact Hj.
    + destruct ok; reflexivity.
Qed.

(** While every submission goes through the enabled button, searches never
    overlap: the race between two replies needs a submission made behind
    the button's back. *)
Lemma enabled_runs_one_search (es : list event) (w : world) :
  one_search_at_a_time w -> via_button w es = true ->
  one_search_at_a_time (steps w es).
Proof.
  revert w. induction es as [|e es IH]; intros w Hinv Hg; [exact Hinv|].
  simpl in Hg. apply andb_true_iff in Hg as [He Hes].
  change (steps w (e :: es)) with (steps (step w e) es).
  apply IH; [|exact Hes].
  apply step_one_search; [exact Hinv|]. intros ->. exact He.
Qed.

(** The race of two searches is not such a run: its second submission is
    made while [loading] is set. *)
Example race_bypasses_button : via_button initial_world race_events = false.
Proof. vm_compute. reflexivity. Qed.

Lemma initial_one_search : one_search_at_a_time initial_world.
Proof.
  apply no_search_left. intros i [d Hd]. simpl in Hd.
  rewrite lookup_empty in Hd. discriminate.
Qed.

End Button.

(** ** Overlapping searches *)

(** C1, as stated, fails: after B's reply is shown, the late reply to the
    older request A replaces B's results, total count and query info, and
    starts a history refresh. *)
Lemma stale_reply_overwrites :
  inflight race_B_replied !! 0%nat
    = Some (ReqSearch (SearchData.Build (lit "graphs") Null Null Null Null 20))
  /\ displayed (ui race_B_replied) = ([paperB], 1, Val (info "trees"))
  /\ displayed (ui (step race_B_replied (SearchSettled 0 (Some respA))))
     = ([paperA], 1, Val (info "graphs"))
  /\ displayed (ui (step race_B_replied (SearchSettled 0 (Some respA))))
     <> displayed (ui race_B_replied)
  /\ emitted race_B_replied
       (step race_B_replied (SearchSettled 0 (Some respA)))
     = [SetSearchResults [paperA]; SetTotalCount 1;
        SetQueryInfo (Val (info "graphs")); AxiosGet; SetLoading false].
Proof.
  repeat split; try (vm_compute; reflexivity).
  vm_compute. discriminate.
Qed.

(** C1, amended: a fulfilled search reply is applied whenever it arrives,
    whether or not newer searches have been issued since: the results,
    total count and query info become those of the reply (the reply that
    settles last is the one displayed), a history refresh is started and
    [loading] is reset. *)
Theorem search_reply_always_applied
    (w : world) (i : nat) (d : SearchData.t) (data : SearchResponse.t) :
  inflight w !! i = Some (ReqSearch d) ->
  let w' := step w (SearchSettled i (Some data)) in
  displayed (ui w')
  = (SearchResponse.papers data, SearchResponse.total_count data,
     SearchResponse.query_info data)
  /\ emitted w w'
     = [SetSearchResults (SearchResponse.papers data);
        SetTotalCount (SearchResponse.total_count data);
        SetQueryInfo (SearchResponse.query_info data);
        AxiosGet; SetLoading false]
  /\ inflight w' !! fresh w = Some ReqHistory
  /\ loading (ui w') = false.
Proof.
  intros H w'. subst w'. rewrite (step_search_settled w i d _ H).
  split; [reflexivity|]. split; [apply emitted_settle|].
  split; [|reflexivity].
  simpl. apply lookup_insert_eq.
Qed.

Lemma search_reply_always_applied_witness :
  displayed (ui (step race_B_replied (SearchSettled 0 (Some respA))))
  = ([paperA], 1, Val (info "graphs")).
Proof.
  refine (proj1 (search_reply_always_applied race_B_replied 0
                   (SearchData.Build (lit "graphs") Null Null Null Null 20)
                   respA _)).
  vm_compute. reflexivity.
Defined.

(** ** Failed searches *)

(** C2, as stated, fails: when the latest search is rejected, the result
    set of the earlier search is still what the page displays. *)
Lemma failed_search_keeps_old_results :
  inflight second_search_pending !! 2%nat
    = Some (ReqSearch (SearchData.Build (lit "trees") Null Null Null Null 20))
  /\ fresh second_search_pending = 3%nat
  /\ displayed (ui (step second_search_pending (SearchSettled 2 None)))
     = ([paperA], 1, Val (info "graphs")).
Proof. repeat split; vm_compute; reflexivity. Qed.

(** C2, amended: when a search request is rejected the failure is shown to
    the user (a console error and the alert "Search failed. Please try
    again."), [loading] is reset, no request is retried, and the results,
    total count and query info stay exactly as they were. *)
Theorem failed_search_alerts
    (w : world) (i : nat) (d : SearchData.t) :
  inflight w !! i = Some (ReqSearch d) ->
  let w' := step w (SearchSettled i None) in
  emitted w w'
  = [ConsoleError (lit "Search error:");
     Alert (lit "Search failed. Please try again.");
     SetLoading false]
  /\ displayed (ui w') = displayed (ui w)
  /\ searchHistory (ui w') = searchHistory (ui w)
  /\ loading (ui w') = false
  /\ inflight w' = delete i (inflight w).
Proof.
  intros H w'. subst w'. rewrite (step_search_settled w i d _ H).
  split; [apply emitted_settle|]. repeat split.
Qed.

Lemma failed_search_alerts_witness :
  emitted second_search_pending
    (step second_search_pending (SearchSettled 2 None))
  = [ConsoleError (lit "Search error:");
     Alert (lit "Search failed. Please try again.");
     SetLoading false].
Proof.
  refine (proj1 (failed_search_alerts second_search_pending 2
                   (SearchData.Build (lit "trees") Null Null Null Null 20) _)).
  vm_compute. reflexivity.
Defined.

(** ** Validation of the form fields *)

Section Validation.

Lemma forallb_Forall_true {A : Type} (f : A -> bool) (l : list A) :
  forallb f l = true -> Forall (fun x => f x = true) l.
Proof.
  induction l as [|x l IH]; simpl; intros H; constructor.
  - apply andb_true_iff in H. tauto.
  - apply IH. apply andb_true_iff in H. tauto.
Qed.

Lemma year_field_digits (y : js_string) :
  is_year_digits y = true -> year_field y = Val (Num (decimal y)).
Proof.
  unfold is_year_digits. intros H.
  apply andb_true_iff in H as [H Hlen].
  apply andb_true_iff in H as [Hne Hall].
  assert (Hy : y <> []) by (intros ->; discriminate).
  unfold year_field. destruct y as [|c r] eqn:E; [congruence|].
  rewrite parseInt_decimal; [reflexivity | exact Hy | |].
  - apply forallb_Forall_true. exact Hall.
  - apply Nat.leb_le. exact Hlen.
Qed.

Lemma radix_digit_not_decimal (c : code_unit) :
  is_dec_digit c = false -> radix_digit 10 c = None.
Proof.
  unfold is_dec_digit, radix_digit, digit_value. intros H.
  replace ((48 <=? Z.of_N c) && (Z.of_N c <=? 57)) with false by lia.
  destruct ((97 <=? Z.of_N c) && (Z.of_N c <=? 122)) eqn:E1.
  { replace (Z.of_N c - 97 + 10 <? 10) with false by lia. reflexivity. }
  destruct ((65 <=? Z.of_N c) && (Z.of_N c <=? 90)) eqn:E2.
  { replace (Z.of_N c - 65 + 10 <? 10) with false by lia. reflexivity. }
  reflexivity.
Qed.

Lemma parseInt_non_numeric (y : js_string) :
  is_non_numeric y = true -> parseInt y = NaN.
Proof.
  destruct y as [|c r]; [discriminate|]. unfold is_non_numeric. intros H.
  apply andb_true_iff in H as [H Hd]. apply andb_true_iff in H as [H Hp].
  apply andb_true_iff in H as [Hw Hm].
  apply negb_true_iff in Hd, Hp, Hm, Hw.
  assert (H48 : (c =? 48)%N = false) by (unfold is_dec_digit in Hd; lia).
  unfold parseInt. simpl trimStart. rewrite Hw, Hm, Hp. cbv iota beta.
  assert (Hpre : digits_prefix 10 (c :: r) = [])
    by (simpl; rewrite (radix_digit_not_decimal c Hd); reflexivity).
  destruct r as [|x r0].
  - rewrite Hpre. reflexivity.
  - rewrite H48. simpl andb. cbv iota. rewrite Hpre. reflexivity.
Qed.

Lemma year_field_non_numeric (y : js_string) :
  is_non_numeric y = true -> year_field y = Val NaN.
Proof.
  intros H. unfold year_field. rewrite (parseInt_non_numeric y H).
  destruct y; [discriminate | reflexivity].
Qed.

Lemma step_submit_nonblank (w : world) :
  trim (query (ui w)) <> [] ->
  step w Submit
  = run [PreventDefault; SetLoading true; AxiosPost (searchData (ui w))] w.
Proof.
  intros H. unfold step. rewrite (handleSearch_nonblank _ H). reflexivity.
Qed.

End Validation.

(** C6, as stated, fails in its last part: submitting a query of three
    spaces sends nothing and changes nothing, but raises no signal. *)
Lemma blank_query_raises_no_signal :
  trim (query (ui blank_query)) = []
  /\ raises_signal blank_query Submit = false
  /\ emitted blank_query (step blank_query Submit) = [PreventDefault].
Proof. repeat split; vm_compute; reflexivity. Qed.

(** C6, amended: when the query is empty after trimming, [handleSearch]
    returns at once: no request is sent, the component state and the
    requests in flight are unchanged, and no signal is raised (its only
    effect is [preventDefault]). *)
Theorem blank_query_is_ignored (w : world) :
  trim (query (ui w)) = [] ->
  ui (step w Submit) = ui w
  /\ inflight (step w Submit) = inflight w
  /\ fresh (step w Submit) = fresh w
  /\ emitted w (step w Submit) = [PreventDefault]
  /\ sends_request w Submit = false
  /\ raises_signal w Submit = false.
Proof.
  intros H.
  assert (Hs : step w Submit = run [PreventDefault] w)
    by (unfold step, handleSearch; rewrite H; reflexivity).
  unfold sends_request, raises_signal. rewrite Hs, emitted_run.
  repeat split.
Qed.

Lemma blank_query_is_ignored_witness :
  ui (step blank_query Submit) = ui blank_query
  /\ sends_request blank_query Submit = false.
Proof.
  destruct (blank_query_is_ignored blank_query) as (H1 & _ & _ & _ & H2 & _).
  - vm_compute. reflexivity.
  - split; [exact H1 | exact H2].
Defined.

(** C7, as stated, fails: with the year "abc" the request is sent all the
    same, carrying NaN for that year, and no error is raised. *)
Lemma non_numeric_year_is_sent :
  parseInt (lit "abc") = NaN
  /\ handleSearch (ui odd_years)
     = [PreventDefault; SetLoading true;
        AxiosPost (SearchData.Build (lit "ml") Null Null
                     (Val NaN) (Val (Num 1800)) 20)]
  /\ sends_request odd_years Submit = true
  /\ raises_signal odd_years Submit = false.
Proof. repeat split; vm_compute; reflexivity. Qed.

(** C8, as stated, fails: with the years 2020 and 2010 the request is sent
    with [year_from] greater than [year_to]. *)
Lemma reversed_years_are_sent :
  inflight (step reversed_years Submit) !! 0%nat
  = Some (ReqSearch (SearchData.Build (lit "ml") Null Null
                       (Val (Num 2020)) (Val (Num 2010)) 20))
  /\ raises_signal reversed_years Submit = false
  /\ 2010 < 2020.
Proof. repeat split; vm_compute; reflexivity. Qed.

(** ** Clearing the history *)

(** C9, as stated, fails: when the delete request is rejected no refresh
    is made, and the sidebar still lists the entry cached before. *)
Lemma failed_delete_skips_refresh :
  inflight clear_pending !! 1%nat = Some ReqDelete
  /\ emitted clear_pending (step clear_pending (DeleteSettled 1 false))
     = [ConsoleError (lit "Error clearing history:")]
  /\ sends_request clear_pending (DeleteSettled 1 false) = false
  /\ display 10 (ui (step clear_pending (DeleteSettled 1 false))) = [entry1].
Proof. repeat split; vm_compute; reflexivity. Qed.

(** ** The loading flag *)

(** C10: a submission that sends a request sets [loading] before the
    request is started; when that request settles, fulfilled or rejected,
    [loading] is reset as the last effect; and a failed history fetch
    changes nothing in the component state, so neither the displayed
    search nor [loading] is altered. *)
Theorem loading_flag_cycle :
  (forall w : world,
     trim (query (ui w)) <> [] ->
     emitted w (step w Submit)
     = [PreventDefault; SetLoading true; AxiosPost (searchData (ui w))]
     /\ loading (ui (step w Submit)) = true
     /\ inflight (step w Submit) !! fresh w
        = Some (ReqSearch (searchData (ui w))))
  /\ (forall (w : world) (i : nat) (d : SearchData.t)
             (r : option SearchResponse.t),
        inflight w !! i = Some (ReqSearch d) ->
        loading (ui (step w (SearchSettled i r))) = false
        /\ last (emitted w (step w (SearchSettled i r)))
           = Some (SetLoading false))
  /\ (forall (w : world) (i : nat),
        inflight w !! i = Some ReqHistory ->
        emitted w (step w (HistorySettled i None))
        = [ConsoleError (lit "Error loading search history:")]
        /\ ui (step w (HistorySettled i None)) = ui w
        /\ displayed (ui (step w (HistorySettled i None))) = displayed (ui w)
        /\ loading (ui (step w (HistorySettled i None))) = loading (ui w)).
Proof.
  split; [|split].
  - intros w H. rewrite (step_submit_nonblank w H), emitted_run.
    split; [reflexivity|]. split; [reflexivity|].
    simpl. apply lookup_insert_eq.
  - intros w i d r H. rewrite (step_search_settled w i d r H), emitted_settle.
    destruct r as [data|]; split; reflexivity.
  - intros w i H. rewrite (step_history_settled w i None H), emitted_settle.
    repeat split.
Qed.

Lemma loading_flag_cycle_witness :
  loading (ui (step reversed_years Submit)) = true
  /\ loading (ui (step second_search_pending (SearchSettled 2 None))) = false
  /\ ui (step mount_pending (HistorySettled 0 None)) = ui mount_pending.
Proof.
  destruct loading_flag_cycle as (H1 & H2 & H3).
  split; [|split].
  - refine (proj1 (proj2 (H1 reversed_years _))).
    vm_compute. discriminate.
  - refine (proj1 (H2 second_search_pending 2%nat
                     (SearchData.Build (lit "trees") Null Null Null Null 20)
                     None _)).
    vm_compute. reflexivity.
  - refine (proj1 (proj2 (H3 mount_pending 0%nat _))).
    vm_compute. reflexivity.
Defined.

(** * Further properties of the request built by [handleSearch] *)

Section Trim.

Lemma forallb_reverse {A : Type} (f : A -> bool) (l : list A) :
  forallb f (reverse l) = forallb f l.
Proof.
  induction l as [|x l IH]; [reflexivity|].
  rewrite reverse_cons, forallb_app, IH. simpl.
  rewrite andb_true_r. apply andb_comm.
Qed.

Lemma trimStart_split (s : js_string) :
  exists pre : js_string,
    s = pre ++ trimStart s /\ forallb is_white_space pre = true.
Proof.
  induction s as [|c r [pre [Hs Hpre]]].
  - exists []. split; reflexivity.
  - simpl. destruct (is_white_space c) eqn:Ec.
    + exists (c :: pre). simpl. rewrite Ec, Hpre. split; [|reflexivity].
      f_equal. exact Hs.
    + exists []. split; reflexivity.
Qed.

Lemma trimStart_head (s : js_string) (c : code_unit) (r : js_string) :
  trimStart s = c :: r -> is_white_space c = false.
Proof.
  induction s as [|x s IH]; simpl; [discriminate|].
  destruct (is_white_space x) eqn:Ex; [exact IH|].
  intros H. injection H as -> _. exact Ex.
Qed.

Lemma trimStart_all_ws (s : js_string) :
  forallb is_white_space s = true -> trimStart s = [].
Proof.
  induction s as [|x s IH]; simpl; [reflexivity|].
  intros H. apply andb_true_iff in H as [-> H]. apply IH, H.
Qed.

Lemma trimStart_nil (s : js_string) :
  trimStart s = [] -> forallb is_white_space s = true.
Proof.
  induction s as [|x s IH]; simpl; [reflexivity|].
  destruct (is_white_space x); [exact IH | discriminate].
Qed.

Lemma trimStart_app_ws (pre s : js_string) :
  forallb is_white_space pre = true -> trimStart (pre ++ s) = trimStart s.
Proof.
  induction pre as [|x pre IH]; simpl; [reflexivity|].
  intros H. apply andb_true_iff in H as [-> H]. apply IH, H.
Qed.

Lemma trimStart_snoc (l : js_string) (c : code_unit) :
  is_white_space c = false -> trimStart (l ++ [c]) = trimStart l ++ [c].
Proof.
  intros Hc. induction l as [|x l IH]; simpl.
  - rewrite Hc. reflexivity.
  - destruct (is_white_space x); [exact IH | reflexivity].
Qed.

Lemma trimEnd_split (t : js_string) :
  exists post : js_string,
    t = trimEnd t ++ post /\ forallb is_white_space post = true.
Proof.
  destruct (trimStart_split (reverse t)) as [pre [Ht Hpre]].
  exists (reverse pre). split.
  - unfold trimEnd. rewrite <- reverse_app, <- Ht, reverse_involutive.
    reflexivity.
  - rewrite forallb_reverse. exact Hpre.
Qed.

Lemma trimEnd_keeps_head (c : code_unit) (r : js_string) :
  is_white_space c = false ->
  trimEnd (c :: r) = c :: reverse (trimStart (reverse r)).
Proof.
  intros Hc. unfold trimEnd.
  rewrite reverse_cons, (trimStart_snoc _ _ Hc), reverse_snoc. reflexivity.
Qed.

Lemma trimEnd_last (t l : js_string) (c : code_unit) :
  trimEnd t = l ++ [c] -> is_white_space c = false.
Proof.
  unfold trimEnd. intros H.
  apply (f_equal reverse) in H.
  rewrite reverse_involutive, reverse_snoc in H.
  apply (trimStart_head _ _ _ H).
Qed.

Lemma trim_head (s : js_string) (c : code_unit) (r : js_string) :
  trim s = c :: r -> is_white_space c = false.
Proof.
  unfold trim. destruct (trimStart s) as [|x t] eqn:Et; [discriminate|].
  pose proof (trimStart_head s x t Et) as Hx.
  rewrite (trimEnd_keeps_head x t Hx). intros H. injection H as <- _.
  exact Hx.
Qed.

Lemma trim_all_ws (s : js_string) :
  forallb is_white_space s = true -> trim s = [].
Proof.
  intros H. unfold trim. rewrite (trimStart_all_ws s H). reflexivity.
Qed.

Lemma trim_nil (s : js_string) :
  trim s = [] -> forallb is_white_space s = true.
Proof.
  unfold trim. intros H.
  destruct (trimStart s) as [|x t] eqn:Et; [apply trimStart_nil, Et|].
  rewrite (trimEnd_keeps_head x t (trimStart_head s x t Et)) in H.
  discriminate.
Qed.

Lemma trim_fixed (u : js_string) :
  (forall c r, u = c :: r -> is_white_space c = false) ->
  (forall l c, u = l ++ [c] -> is_white_space c = false) ->
  trim u = u.
Proof.
  intros Hhead Hlast.
  assert (Hs : trimStart u = u).
  { destruct u as [|c r]; [reflexivity|].
    simpl. rewrite (Hhead c r eq_refl). reflexivity. }
  unfold trim. rewrite Hs. unfold trimEnd.
  assert (Hr : trimStart (reverse u) = reverse u).
  { destruct (reverse u) as [|c r] eqn:Er; [reflexivity|].
    simpl. rewrite (Hlast (reverse r) c); [reflexivity|].
    rewrite <- (reverse_involutive u), Er, reverse_cons. reflexivity. }
  rewrite Hr. apply reverse_involutive.
Qed.

Lemma trim_trim (s : js_string) : trim (trim s) = trim s.
Proof.
  apply trim_fixed.
  - intros c r. apply trim_head.
  - intros l c. unfold trim. apply trimEnd_last.
Qed.

Lemma or_null_trim (x : js_string) :
  (forallb is_white_space x = true -> or_null (trim x) = Null)
  /\ (forallb is_white_space x = false -> or_null (trim x) = Val (trim x)).
Proof.
  split; intros H.
  - rewrite (trim_all_ws x H). reflexivity.
  - destruct (trim x) as [|c r] eqn:E; [|reflexivity].
    rewrite (trim_nil x E) in H. discriminate.
Qed.

End Trim.

(** X1: a submission starts a request exactly when the query box holds at
    least one code unit that is not white space. *)
Theorem submit_sends_iff_visible_text (w : world) :
  sends_request w Submit = negb (forallb is_white_space (query (ui w))).
Proof.
  unfold sends_request.
  destruct (forallb is_white_space (query (ui w))) eqn:E.
  - assert (Hs : step w Submit = run [PreventDefault] w)
      by (unfold step, handleSearch; rewrite (trim_all_ws _ E); reflexivity).
    rewrite Hs, emitted_run. reflexivity.
  - assert (Hq : trim (query (ui w)) <> []).
    { intros Hn. rewrite (trim_nil _ Hn) in E. discriminate. }
    rewrite (step_submit_nonblank w Hq), emitted_run. reflexivity.
Qed.

(** X2: the query text of a request is the typed text with a run of white
    space removed at each end and nothing else changed; it starts and ends
    with a code unit that is not white space, and trimming it again leaves
    it as it is. *)
Theorem sent_query_is_trimmed (s : state) :
  (exists pre post : js_string,
     query s = pre ++ SearchData.query (searchData s) ++ post
     /\ forallb is_white_space pre = true
     /\ forallb is_white_space post = true)
  /\ (forall c r, SearchData.query (searchData s) = c :: r ->
        is_white_space c = false)
  /\ (forall l c, SearchData.query (searchData s) = l ++ [c] ->
        is_white_space c = false)
  /\ trim (SearchData.query (searchData s)) = SearchData.query (searchData s).
Proof.
  simpl. repeat split.
  - destruct (trimStart_split (query s)) as [pre [Hs Hpre]].
    destruct (trimEnd_split (trimStart (query s))) as [post [Ht Hpost]].
    exists pre, post. split; [|split; assumption].
    unfold trim. rewrite <- Ht. exact Hs.
  - intros c r. apply trim_head.
  - intros l c. unfold trim. apply trimEnd_last.
  - apply trim_trim.
Qed.

Lemma sent_query_is_trimmed_witness :
  is_white_space 109%N = false.
Proof.
  refine (proj1 (proj2 (sent_query_is_trimmed (ui reversed_years)))
            109%N [108%N] _).
  vm_compute. reflexivity.
Defined.

(** X3: the author and venue filters are never sent as empty strings: a
    filter left blank (empty or white space only) is sent as [null], any
    other as its trimmed, non-empty text. *)
Theorem blank_filters_are_null (s : state) :
  (SearchData.author (searchData s)
   = if forallb is_white_space (author s) then Null else Val (trim (author s)))
  /\ (SearchData.venue (searchData s)
      = if forallb is_white_space (venue s) then Null
        else Val (trim (venue s)))
  /\ SearchData.author (searchData s) <> Val []
  /\ SearchData.venue (searchData s) <> Val []
  /\ SearchData.author (searchData s) <> Undefined
  /\ SearchData.venue (searchData s) <> Undefined.
Proof.
  simpl.
  assert (H : forall x : js_string,
            or_null (trim x)
            = (if forallb is_white_space x then Null else Val (trim x))
            /\ or_null (trim x) <> Val []
            /\ or_null (trim x) <> Undefined).
  { intros x. destruct (or_null_trim x) as [Hb Hn].
    destruct (forallb is_white_space x) eqn:E.
    - rewrite (Hb eq_refl). repeat split; discriminate.
    - rewrite (Hn eq_refl). split; [reflexivity|]. split; [|discriminate].
      intros Hv. injection Hv as Hv. rewrite (trim_nil x Hv) in E.
      discriminate. }
  destruct (H (author s)) as (Ha1 & Ha2 & Ha3).
  destruct (H (venue s)) as (Hv1 & Hv2 & Hv3).
  repeat split; assumption.
Qed.

Lemma blank_filters_are_null_witness :
  SearchData.author (searchData (ui reversed_years)) <> Val [].
Proof.
  exact (proj1 (proj2 (proj2 (blank_filters_are_null (ui reversed_years))))).
Defined.

(** ** Year fields *)

Section Years.

Lemma parseInt_unfold (s : js_string) :
  parseInt s
  = match trimStart s with
    | c :: r =>
        if (c =? 45)%N then parse_tail (-1) r
        else if (c =? 43)%N then parse_tail 1 r
        else parse_tail 1 (c :: r)
    | [] => parse_tail 1 []
    end.
Proof.
  unfold parseInt, parse_tail. destruct (trimStart s) as [|c r]; [reflexivity|].
  destruct (c =? 45)%N; [reflexivity|].
  destruct (c =? 43)%N; reflexivity.
Qed.

Lemma year_digits_inv (ds : js_string) :
  is_year_digits ds = true ->
  ds <> [] /\ Forall (fun c => is_dec_digit c = true) ds
  /\ (length ds <= 15)%nat.
Proof.
  unfold is_year_digits. intros H.
  apply andb_true_iff in H as [H Hlen].
  apply andb_true_iff in H as [Hne Hall].
  split; [intros ->; discriminate|].
  split; [apply forallb_Forall_true, Hall | apply Nat.leb_le, Hlen].
Qed.

Lemma digits_prefix_app (ds rest : js_string) :
  Forall (fun c => is_dec_digit c = true) ds ->
  ends_number rest = true ->
  digits_prefix 10 (ds ++ rest) = map (fun c => Z.of_N c - 48) ds.
Proof.
  intros Hall Hend. induction Hall as [|c r Hc _ IH]; simpl.
  - destruct rest as [|y rest']; [reflexivity|]. simpl in Hend.
    apply andb_true_iff in Hend as [Hend _].
    apply andb_true_iff in Hend as [Hy _]. apply negb_true_iff in Hy.
    simpl. rewrite (radix_digit_not_decimal y Hy). reflexivity.
  - rewrite (dec_digit_radix c Hc), IH. reflexivity.
Qed.

Lemma parse_tail_digits (sign : Z) (ds rest : js_string) :
  is_year_digits ds = true ->
  ends_number rest = true ->
  sign = 1 \/ sign = -1 ->
  parse_tail sign (ds ++ rest) = Num (sign * decimal ds).
Proof.
  intros Hds Hend Hsign.
  destruct (year_digits_inv ds Hds) as (Hne & Hall & Hlen).
  pose proof (decimal_bounds ds Hall) as Hb.
  assert (Hpow : 10 ^ Z.of_nat (length ds) <= 10 ^ 15)
    by (apply Z.pow_le_mono_r; lia).
  assert (Hsmall : (Z.abs (sign * decimal ds) <? 2 ^ 53) = true).
  { apply Z.ltb_lt. change (2 ^ 53) with 9007199254740992.
    change (10 ^ 15) with 1000000000000000 in Hpow.
    destruct Hsign as [-> | ->]; lia. }
  pose proof (digits_prefix_app ds rest Hall Hend) as Hpre.
  destruct ds as [|c r]; [congruence|].
  assert (Hval :
    match digits_prefix 10 ((c :: r) ++ rest) with
    | [] => NaN
    | d :: ds' => number_of_int (sign * math_int 10 (d :: ds'))
    end = Num (sign * decimal (c :: r))).
  { rewrite Hpre. simpl map. unfold math_int.
    change (fold_left (fun a d => a * 10 + d)
              (Z.of_N c - 48 :: map (fun c0 => Z.of_N c0 - 48) r) 0)
      with (fold_left (fun a d => a * 10 + d)
              (map (fun c0 => Z.of_N c0 - 48) (c :: r)) 0).
    rewrite math_int_decimal, Z.mul_0_l, Z.add_0_l.
    unfold number_of_int. rewrite Hsmall. reflexivity. }
  unfold parse_tail. destruct r as [|x r0].
  - destruct rest as [|y rest']; [exact Hval|].
    simpl in Hend. apply andb_true_iff in Hend as [Hend H88].
    apply andb_true_iff in Hend as [_ H120].
    apply negb_true_iff in H88, H120.
    change (([c] ++ y :: rest')) with (c :: y :: rest') in *.
    cbv iota beta. rewrite H120, H88. simpl orb. rewrite andb_false_r.
    exact Hval.
  - pose proof (is_dec_digit_range x (Forall_inv (Forall_inv_tail Hall))).
    change ((c :: x :: r0) ++ rest) with (c :: x :: (r0 ++ rest)) in *.
    cbv iota beta.
    replace ((x =? 120)%N || (x =? 88)%N) with false by lia.
    rewrite andb_false_r. exact Hval.
Qed.

Lemma parseInt_year (pre ds rest : js_string) :
  forallb is_white_space pre = true ->
  is_year_digits ds = true ->
  ends_number rest = true ->
  parseInt (pre ++ ds ++ rest) = Num (decimal ds)
  /\ parseInt (pre ++ 45%N :: ds ++ rest) = Num (- decimal ds)
  /\ parseInt (pre ++ 43%N :: ds ++ rest) = Num (decimal ds).
Proof.
  intros Hpre Hds Hend.
  pose proof (parse_tail_digits 1 ds rest Hds Hend (or_introl eq_refl)) as H1.
  pose proof (parse_tail_digits (-1) ds rest Hds Hend (or_intror eq_refl))
    as H2.
  rewrite Z.mul_1_l in H1.
  replace (-1 * decimal ds) with (- decimal ds) in H2 by lia.
  rewrite !parseInt_unfold, !(trimStart_app_ws pre _ Hpre).
  destruct (year_digits_inv ds Hds) as (Hne & Hall & _).
  destruct ds as [|c r]; [congruence|].
  pose proof (Forall_inv Hall) as Hc.
  pose proof (is_dec_digit_range c Hc) as Hr.
  split; [|split].
  - change ((c :: r) ++ rest) with (c :: (r ++ rest)). simpl trimStart.
    rewrite (dec_digit_not_space c Hc).
    replace (c =? 45)%N with false by lia.
    replace (c =? 43)%N with false by lia. exact H1.
  - exact H2.
  - exact H1.
Qed.

End Years.

(** X5: in a year field, white space before the digits and any text after
    them are ignored: "2020.5" is sent as 2020 and "1e3" as 1. *)
Theorem year_ignores_surrounding_text (pre ds rest : js_string) :
  forallb is_white_space pre = true ->
  is_year_digits ds = true ->
  ends_number rest = true ->
  year_field (pre ++ ds ++ rest) = Val (Num (decimal ds)).
Proof.
  intros Hpre Hds Hend.
  destruct (parseInt_year pre ds rest Hpre Hds Hend) as (H & _ & _).
  unfold year_field. rewrite H.
  destruct (year_digits_inv ds Hds) as (Hne & _ & _).
  destruct (pre ++ ds ++ rest) as [|c r] eqn:E; [|reflexivity].
  apply app_eq_nil in E as [_ E]. apply app_eq_nil in E as [E _].
  congruence.
Qed.

Lemma year_ignores_surrounding_text_witness :
  year_field (lit " 2020.5") = Val (Num 2020)
  /\ year_field (lit "1e3") = Val (Num 1).
Proof.
  split.
  - apply (year_ignores_surrounding_text (lit " ") (lit "2020") (lit ".5"));
      vm_compute; reflexivity.
  - apply (year_ignores_surrounding_text [] (lit "1") (lit "e3"));
      vm_compute; reflexivity.
Defined.

(** X6: a sign in front of the digits of a year is kept: a year typed with
    a minus sign is sent as a negative number, one typed with a plus sign
    as the number itself. *)
Theorem year_sign_is_kept (pre ds rest : js_string) :
  forallb is_white_space pre = true ->
  is_year_digits ds = true ->
  ends_number rest = true ->
  year_field (pre ++ 45%N :: ds ++ rest) = Val (Num (- decimal ds))
  /\ year_field (pre ++ 43%N :: ds ++ rest) = Val (Num (decimal ds)).
Proof.
  intros Hpre Hds Hend.
  destruct (parseInt_year pre ds rest Hpre Hds Hend) as (_ & Hm & Hp).
  unfold year_field. rewrite Hm, Hp.
  split.
  - destruct (pre ++ 45%N :: ds ++ rest) as [|c r] eqn:E; [|reflexivity].
    apply app_eq_nil in E as [_ E]. discriminate.
  - destruct (pre ++ 43%N :: ds ++ rest) as [|c r] eqn:E; [|reflexivity].
    apply app_eq_nil in E as [_ E]. discriminate.
Qed.

Lemma year_sign_is_kept_witness :
  year_field (lit "-5") = Val (Num (-5))
  /\ year_field (lit "+1999") = Val (Num 1999).
Proof.
  split.
  - apply (proj1 (year_sign_is_kept [] (lit "5") [] eq_refl eq_refl eq_refl)).
  - apply (proj2 (year_sign_is_kept [] (lit "1999") [] eq_refl eq_refl
                    eq_refl)).
Defined.

(** * Further properties of the display helpers *)

(** X7: for every text and every limit (a negative limit counts as 0), the
    result of [truncateAbstract] keeps the first [maxLength] code units of
    the input, is at most [maxLength + 3] long and at most 2 longer than
    the input; it is longer than the input exactly when the input exceeds
    the limit by one or two code units. *)
Theorem truncateAbstract_may_lengthen (s : js_string) (m : Z) :
  exists r : js_string,
    truncateAbstract (Val s) m = Val r
    /\ take (Z.to_nat m) r = take (Z.to_nat m) s
    /\ (length r <= Z.to_nat m + 3)%nat
    /\ (length r <= length s + 2)%nat
    /\ ((length s < length r)%nat
        <-> (Z.to_nat m < length s < Z.to_nat m + 3)%nat).
Proof.
  unfold truncateAbstract.
  destruct ((length s =? 0)%nat || (Z.of_nat (length s) <=? m)) eqn:E.
  - exists s. split; [reflexivity|]. split; [reflexivity|].
    assert (Hk : (length s <= Z.to_nat m)%nat).
    { apply orb_true_iff in E as [E|E]; revert E; clear; lia. }
    revert Hk. clear. lia.
  - apply orb_false_elim in E as [E0 Em].
    assert (Hk : (Z.to_nat m < length s)%nat) by (revert E0 Em; clear; lia).
    exists (substring0 s m ++ lit "..."). split; [reflexivity|].
    assert (Hl : length (take (Z.to_nat m) s) = Z.to_nat m)
      by (rewrite length_take; revert Hk; clear; lia).
    unfold substring0.
    split.
    { rewrite take_app_le by (rewrite Hl; reflexivity).
      rewrite take_take, Nat.min_id. reflexivity. }
    rewrite length_app, Hl, length_dots. revert Hk. clear. lia.
Qed.

Lemma truncateAbstract_may_lengthen_witness :
  exists r : js_string,
    truncateAbstract (Val (replicate 301 97%N)) 300 = Val r
    /\ (length (replicate 301 97%N) < length r)%nat.
Proof.
  destruct (truncateAbstract_may_lengthen (replicate 301 97%N) 300)
    as (r & Hr & _ & _ & _ & Hiff).
  exists r. split; [exact Hr|]. apply Hiff. vm_compute. lia.
Defined.

(** X8: the abstract paragraph of a paper card is rendered exactly when the
    paper has a non-empty abstract; its text is then between 1 and 303 code
    units long, agrees with the abstract on the first 300, and is the whole
    abstract when that has at most 300 code units. *)
Theorem abstract_paragraph_bounds (p : Paper.t) :
  match abstract_paragraph p with
  | Some x =>
      exists s t : js_string,
        Paper.abstract p = Val s /\ x = Val t
        /\ (1 <= length t <= 303)%nat
        /\ take 300 t = take 300 s
        /\ ((length s <= 300)%nat -> t = s)
  | None => forall c r, Paper.abstract p <> Val (c :: r)
  end.
Proof.
  unfold abstract_paragraph.
  destruct (Paper.abstract p) as [| |[|c s']] eqn:Ea; try discriminate.
  set (s := c :: s').
  destruct (truncateAbstract_may_lengthen s 300)
    as (t & Ht & Htake & Hlen & _ & _).
  exists s, t. split; [reflexivity|]. split; [exact Ht|].
  change (Z.to_nat 300) with 300%nat in *.
  assert (Hcases : t = s \/ t = substring0 s 300 ++ lit "...").
  { unfold truncateAbstract in Ht.
    destruct ((length s =? 0)%nat || (Z.of_nat (length s) <=? 300));
      injection Ht as <-; [left | right]; reflexivity. }
  split; [|split; [exact Htake|]].
  - split; [|exact Hlen].
    destruct Hcases as [-> | ->]; [simpl; lia|].
    rewrite length_app, length_dots. lia.
  - intros Hs. unfold truncateAbstract in Ht.
    replace (Z.of_nat (length s) <=? 300) with true in Ht
      by (revert Hs; clear; lia).
    rewrite orb_true_r in Ht. injection Ht as <-. reflexivity.
Qed.

Lemma abstract_paragraph_bounds_witness :
  exists s t : js_string,
    Val (lit "Short.") = Val s /\ t = s.
Proof.
  pose proof (abstract_paragraph_bounds
                (Paper.Build (lit "p3") (lit "T") Null Null Null
                   (Val (lit "Short.")) 0 Null Null Null (lit "CrossRef")))
    as H.
  simpl in H. destruct H as (s & t & Hs & _ & _ & _ & Hsame).
  exists s, t. split; [exact Hs|]. apply Hsame.
  injection Hs as <-. vm_compute. lia.
Defined.

(** X9: for a non-empty author list the byline starts with the first
    author's name in full, and however many authors there are it is at
    most 9 code units longer than the first two names together. *)
Theorem byline_is_bounded (a : js_string) (rest : list js_string) :
  (exists suffix : js_string, formatAuthors (Val (a :: rest)) = a ++ suffix)
  /\ (length (formatAuthors (Val (a :: rest)))
      <= length a + match rest with [] => 0 | b :: _ => length b end + 9)%nat.
Proof.
  destruct rest as [|b [|c rest]].
  - split; [exists []; simpl; rewrite app_nil_r; reflexivity|]. simpl. lia.
  - split; [exists (lit " and " ++ b); reflexivity|].
    change (formatAuthors (Val [a; b])) with (a ++ lit " and " ++ b).
    rewrite !length_app. simpl. lia.
  - assert (H : formatAuthors (Val (a :: b :: c :: rest))
                = a ++ lit ", " ++ b ++ lit " et al.").
    { unfold formatAuthors. simpl. rewrite <- !app_assoc. reflexivity. }
    rewrite H. split; [eexists; reflexivity|].
    rewrite !length_app. simpl. lia.
Qed.

(** * Further properties of the running page *)

(** Case analysis on the event of a step, down to the effects it runs. *)
Ltac event_cases w e :=
  destruct e as [|a| | |i r|i r|i ok]; unfold step;
  [ idtac
  | destruct (is_edit a) eqn:Ea; [destruct a; try discriminate|]
  | unfold handleSearch; destruct (trim (query (ui w))) as [|c q]
  | idtac
  | destruct (inflight w !! i) as [[d| |]|] eqn:Ei;
    [destruct r as [data|]| | |]
  | destruct (inflight w !! i) as [[d| |]|] eqn:Ei;
    [|destruct r as [h|]| |]
  | destruct (inflight w !! i) as [[d| |]|] eqn:Ei;
    [| |destruct ok|] ].

(** X10: the displayed results, total count and query info change only
    when a fulfilled reply to a search in flight arrives; no edit, no
    submission, no failure and no history event clears or alters them. *)
Theorem results_change_only_on_reply (w : world) (e : event) :
  displayed (ui (step w e)) = displayed (ui w)
  \/ exists (i : nat) (d : SearchData.t) (data : SearchResponse.t),
       e = SearchSettled i (Some data)
       /\ inflight w !! i = Some (ReqSearch d)
       /\ displayed (ui (step w e))
          = (SearchResponse.papers data, SearchResponse.total_count data,
             SearchResponse.query_info data).
Proof.
  event_cases w e;
    first [ left; reflexivity
          | right; do 3 eexists; split; [reflexivity|];
            split; [eassumption|]; reflexivity ].
Qed.

(** X11: the five form fields change only when the user edits them: no
    submission and no reply, fulfilled or rejected, clears or rewrites
    what was typed. *)
Theorem form_changes_only_on_edit (w : world) (e : event) :
  form (ui (step w e)) = form (ui w)
  \/ exists a : action, e = Edit a /\ is_edit a = true.
Proof.
  event_cases w e;
    first [ left; reflexivity
          | right; eexists; split; reflexivity ].
Qed.

(** X12: the cached history changes only when a fulfilled history fetch
    arrives (it becomes the list fetched) or when a deletion succeeds (it
    becomes empty); searching, editing and failed requests leave it. *)
Theorem history_changes_only_on_reply (w : world) (e : event) :
  searchHistory (ui (step w e)) = searchHistory (ui w)
  \/ (exists (i : nat) (h : list HistoryEntry.t),
        e = HistorySettled i (Some h)
        /\ inflight w !! i = Some ReqHistory
        /\ searchHistory (ui (step w e)) = h)
  \/ (exists i : nat,
        e = DeleteSettled i true
        /\ inflight w !! i = Some ReqDelete
        /\ searchHistory (ui (step w e)) = []).
Proof.
  event_cases w e;
    first [ left; reflexivity
          | right; left; do 2 eexists; split; [reflexivity|];
            split; [eassumption|]; reflexivity
          | right; right; eexists; split; [reflexivity|];
            split; [eassumption|]; reflexivity ].
Qed.

Section Invariants.

Lemma exec_fresh_ok (w : world) (a : action) :
  fresh_ok w -> fresh_ok (exec w a).
Proof.
  intros Hf j Hj. unfold exec in *. simpl in *.
  destruct (issued a) as [r|].
  - rewrite lookup_insert_ne by lia. apply Hf. lia.
  - apply Hf, Hj.
Qed.

Lemma run_fresh_ok (acts : list action) (w : world) :
  fresh_ok w -> fresh_ok (run acts w).
Proof.
  revert w. induction acts as [|a acts IH]; intros w Hf; [exact Hf|].
  change (run (a :: acts) w) with (run acts (exec w a)).
  apply IH, exec_fresh_ok, Hf.
Qed.

Lemma settle_fresh_ok (i : nat) (w : world) :
  fresh_ok w -> fresh_ok (settle i w).
Proof.
  intros Hf j Hj. simpl in *. apply lookup_delete_None. right. apply Hf, Hj.
Qed.

Lemma step_fresh_ok (w : world) (e : event) :
  fresh_ok w -> fresh_ok (step w e).
Proof.
  intros Hf. destruct e as [|a| | |i r|i r|i ok]; unfold step;
    try (apply run_fresh_ok, Hf).
  - destruct (is_edit a); [apply run_fresh_ok, Hf | exact Hf].
  - destruct (inflight w !! i) as [[d| |]|]; try exact Hf.
    apply run_fresh_ok, settle_fresh_ok, Hf.
  - destruct (inflight w !! i) as [[d| |]|]; try exact Hf.
    apply run_fresh_ok, settle_fresh_ok, Hf.
  - destruct (inflight w !! i) as [[d| |]|]; try exact Hf.
    apply run_fresh_ok, settle_fresh_ok, Hf.
Qed.

Lemma busy_kept (w w' : world) :
  busy_means_search w ->
  loading (ui w') = loading (ui w) ->
  (forall (j : nat) (dj : SearchData.t),
     inflight w !! j = Some (ReqSearch dj) ->
     inflight w' !! j = Some (ReqSearch dj)) ->
  busy_means_search w'.
Proof.
  intros Hb Hl Hkeep Hbusy. rewrite Hl in Hbusy.
  destruct (Hb Hbusy) as [j [dj Hj]]. exists j, dj. apply Hkeep, Hj.
Qed.

Lemma step_busy (w : world) (e : event) :
  fresh_ok w -> busy_means_search w -> busy_means_search (step w e).
Proof.
  intros Hf Hb.
  event_cases w e; try exact Hb;
    try (apply (busy_kept w _ Hb); [reflexivity|];
         intros j dj Hj; simpl;
         repeat first
           [ exact Hj
           | rewrite lookup_insert_ne
               by (intros Heq; rewrite <- Heq in Hj;
                   rewrite (Hf _ (le_n _)) in Hj; discriminate)
           | rewrite lookup_delete_ne
               by (intros Heq; rewrite <- Heq in Hj;
                   rewrite Ei in Hj; discriminate) ]; fail).
  - (* a submission with visible text *)
    intros _. exists (fresh w), (searchData (ui w)). simpl.
    apply lookup_insert_eq.
  - (* a fulfilled search reply *)
    intros Hbusy. simpl in Hbusy. discriminate.
  - (* a rejected search reply *)
    intros Hbusy. simpl in Hbusy. discriminate.
Qed.

Lemma steps_busy (es : list event) (w : world) :
  fresh_ok w -> busy_means_search w ->
  fresh_ok (steps w es) /\ busy_means_search (steps w es).
Proof.
  revert w. induction es as [|e es IH]; intros w Hf Hb; [split; assumption|].
  change (steps w (e :: es)) with (steps (step w e) es).
  apply IH; [apply step_fresh_ok, Hf | apply step_busy; assumption].
Qed.

Lemma initial_fresh_ok : fresh_ok initial_world.
Proof. intros i _. apply lookup_empty. Qed.

Lemma initial_busy : busy_means_search initial_world.
Proof. intros H. discriminate. Qed.

End Invariants.

(** X13: history replies are applied in the order they arrive, not the
    order their requests were issued: with two history fetches in flight,
    the cache ends up holding the list carried by whichever reply arrives
    last. *)
Theorem history_last_reply_wins
    (w : world) (i j : nat) (hi hj : list HistoryEntry.t) :
  i <> j ->
  inflight w !! i = Some ReqHistory ->
  inflight w !! j = Some ReqHistory ->
  searchHistory
    (ui (steps w [HistorySettled i (Some hi); HistorySettled j (Some hj)]))
  = hj
  /\ searchHistory
       (ui (steps w [HistorySettled j (Some hj); HistorySettled i (Some hi)]))
     = hi.
Proof.
  intros Hij Hi Hj.
  assert (H : forall (a b : nat) (ha hb : list HistoryEntry.t),
            a <> b ->
            inflight w !! a = Some ReqHistory ->
            inflight w !! b = Some ReqHistory ->
            searchHistory
              (ui (steps w [HistorySettled a (Some ha);
                            HistorySettled b (Some hb)])) = hb).
  { intros a b ha hb Hab Ha Hb.
    change (steps w [HistorySettled a (Some ha); HistorySettled b (Some hb)])
      with (step (step w (HistorySettled a (Some ha)))
              (HistorySettled b (Some hb))).
    rewrite (step_history_settled w a _ Ha).
    rewrite step_history_settled; [reflexivity|].
    simpl. rewrite lookup_delete_ne by exact Hab. exact Hb. }
  split; [apply H | apply H]; auto.
Qed.

Lemma history_last_reply_wins_witness :
  searchHistory
    (ui (steps two_refreshes_pending
           [HistorySettled 2 (Some []); HistorySettled 0 (Some [entry1])]))
  = [entry1].
Proof.
  refine (proj1 (history_last_reply_wins two_refreshes_pending 2 0
                   [] [entry1] _ _ _)).
  - discriminate.
  - vm_compute. reflexivity.
  - vm_compute. reflexivity.
Defined.

(** X14: in every run of the page, [loading] is set only while some search
    is awaiting its reply; and when every submission goes through the
    enabled button, the converse holds too and at most one search is in
    flight, so the spinner shows exactly while a search is pending. *)
Theorem spinner_tracks_search (es : list event) :
  (loading (ui (steps initial_world es)) = true ->
   exists i : nat, search_in_flight (steps initial_world es) i)
  /\ (via_button initial_world es = true ->
      (forall i : nat,
         search_in_flight (steps initial_world es) i ->
         loading (ui (steps initial_world es)) = true)
      /\ (forall i j : nat,
            search_in_flight (steps initial_world es) i ->
            search_in_flight (steps initial_world es) j -> i = j)).
Proof.
  split.
  - apply (steps_busy es initial_world initial_fresh_ok initial_busy).
  - intros Hb.
    destruct (enabled_runs_one_search es initial_world
                initial_one_search Hb) as [Huniq Hload].
    split; assumption.
Qed.

Lemma spinner_tracks_search_witness :
  exists i : nat, search_in_flight second_search_pending i.
Proof.
  refine (proj1 (spinner_tracks_search
                   [Edit (SetQuery (lit "graphs")); Submit;
                    SearchSettled 0 (Some respA);
                    HistorySettled 1 (Some [entry1]);
                    Edit (SetQuery (lit "trees")); Submit]) _).
  vm_compute. reflexivity.
Defined.

(** X15: a search that runs to completion (submission, fulfilled reply,
    fulfilled history refresh) leaves the form as typed, shows exactly the
    reply's papers, count and query info, caches the refreshed history and
    clears [loading]. *)
Theorem successful_search_cycle
    (w : world) (data : SearchResponse.t) (h : list HistoryEntry.t) :
  trim (query (ui w)) <> [] ->
  let w' := steps w [Submit; SearchSettled (fresh w) (Some data);
                     HistorySettled (S (fresh w)) (Some h)] in
  form (ui w') = form (ui w)
  /\ displayed (ui w')
     = (SearchResponse.papers data, SearchResponse.total_count data,
        SearchResponse.query_info data)
  /\ searchHistory (ui w') = h
  /\ loading (ui w') = false.
Proof.
  intros Hq w'. subst w'.
  change (steps w [Submit; SearchSettled (fresh w) (Some data);
                   HistorySettled (S (fresh w)) (Some h)])
    with (step (step (step w Submit) (SearchSettled (fresh w) (Some data)))
            (HistorySettled (S (fresh w)) (Some h))).
  rewrite (step_submit_nonblank w Hq).
  rewrite (step_search_settled _ (fresh w) (searchData (ui w)))
    by (simpl; apply lookup_insert_eq).
  rewrite step_history_settled by (simpl; apply lookup_insert_eq).
  repeat split.
Qed.

Lemma successful_search_cycle_witness :
  searchHistory
    (ui (steps reversed_years
           [Submit; SearchSettled (fresh reversed_years) (Some respA);
            HistorySettled (S (fresh reversed_years)) (Some [entry1])]))
  = [entry1].
Proof.
  refine (proj1 (proj2 (proj2
            (successful_search_cycle reversed_years respA [entry1] _)))).
  vm_compute. discriminate.
Defined.

(** X16: clicking an entry of the sidebar only fills the query box: it
    sends nothing and leaves the other fields and the display alone, so a
    submission that follows sends the entry's query, trimmed, together
    with the author, venue and year filters still in the form. *)
Theorem history_click_fills_query_only (w : world) (item : HistoryEntry.t) :
  emitted w (step w (click_history item))
  = [SetQuery (HistoryEntry.query item)]
  /\ sends_request w (click_history item) = false
  /\ form (ui (step w (click_history item)))
     = (HistoryEntry.query item, author (ui w), venue (ui w),
        yearFrom (ui w), yearTo (ui w))
  /\ displayed (ui (step w (click_history item))) = displayed (ui w)
  /\ (trim (HistoryEntry.query item) <> [] ->
      inflight (step (step w (click_history item)) Submit) !! fresh w
      = Some (ReqSearch
                (SearchData.Build (trim (HistoryEntry.query item))
                   (or_null (trim (author (ui w))))
                   (or_null (trim (venue (ui w))))
                   (year_field (yearFrom (ui w)))
                   (year_field (yearTo (ui w))) 20))).
Proof.
  assert (Hs : step w (click_history item)
               = run [SetQuery (HistoryEntry.query item)] w) by reflexivity.
  unfold sends_request. rewrite Hs, emitted_run.
  repeat split.
  intros Hq. rewrite step_submit_nonblank by exact Hq.
  simpl. apply lookup_insert_eq.
Qed.

Lemma history_click_fills_query_only_witness :
  inflight (step (step reversed_years (click_history entry1)) Submit)
    !! fresh reversed_years
  = Some (ReqSearch
            (SearchData.Build (lit "graphs") Null Null
               (Val (Num 2020)) (Val (Num 2010)) 20)).
Proof.
  refine (proj2 (proj2 (proj2 (proj2
            (history_click_fills_query_only reversed_years entry1)))) _).
  vm_compute. discriminate.
Defined.

(** * The theme *)

Section ThemeFacts.

Lemma apply_theme_consistent (p : Theme.page) :
  Theme.consistent (Theme.apply_theme p).
Proof.
  unfold Theme.consistent, Theme.apply_theme.
  destruct (Theme.darkMode p) eqn:E; simpl.
  - split; apply lookup_insert_eq.
  - split; [apply lookup_insert_eq | apply lookup_delete_eq].
Qed.

Lemma apply_theme_others (p : Theme.page) (k : list N) :
  k <> lit "theme" ->
  Theme.localStorage (Theme.apply_theme p) !! k = Theme.localStorage p !! k.
Proof.
  intros Hk. unfold Theme.apply_theme.
  destruct (Theme.darkMode p); simpl; apply lookup_insert_ne; congruence.
Qed.

Lemma toggle_consistent (p : Theme.page) (checked : bool) :
  Theme.consistent p -> Theme.consistent (Theme.toggle p checked).
Proof.
  intros H. unfold Theme.toggle.
  destruct (Bool.eqb checked (Theme.darkMode p)); [exact H|].
  apply apply_theme_consistent.
Qed.

Lemma toggle_others (p : Theme.page) (checked : bool) (k : list N) :
  k <> lit "theme" ->
  Theme.localStorage (Theme.toggle p checked) !! k
  = Theme.localStorage p !! k.
Proof.
  intros Hk. unfold Theme.toggle.
  destruct (Bool.eqb checked (Theme.darkMode p)); [reflexivity|].
  rewrite (apply_theme_others _ k Hk). reflexivity.
Qed.

Lemma mount_consistent (storage attrs : gmap (list N) (list N)) :
  Theme.consistent (Theme.mount storage attrs).
Proof.
  unfold Theme.mount. destruct (Theme.saved_is_dark storage);
    apply apply_theme_consistent.
Qed.

Lemma mount_others (storage attrs : gmap (list N) (list N)) (k : list N) :
  k <> lit "theme" ->
  Theme.localStorage (Theme.mount storage attrs) !! k = storage !! k.
Proof.
  intros Hk. unfold Theme.mount. destruct (Theme.saved_is_dark storage).
  - rewrite (apply_theme_others _ k Hk). simpl.
    apply lookup_insert_ne. congruence.
  - rewrite (apply_theme_others _ k Hk). reflexivity.
Qed.


Lemma fold_toggle_consistent (clicks : list bool) (p : Theme.page) :
  Theme.consistent p -> Theme.consistent (fold_left Theme.toggle clicks p).
Proof.
  revert p. induction clicks as [|c clicks IH]; intros p H; [exact H|].
  simpl. apply IH, toggle_consistent, H.
Qed.

Lemma fold_toggle_others (clicks : list bool) (p : Theme.page) (k : list N) :
  k <> lit "theme" ->
  Theme.localStorage (fold_left Theme.toggle clicks p) !! k
  = Theme.localStorage p !! k.
Proof.
  intros Hk. revert p. induction clicks as [|c clicks IH]; intros p;
    [reflexivity|].
  simpl. rewrite IH. apply toggle_others, Hk.
Qed.


End ThemeFacts.

(** X18: after mounting and after every use of the switch, the stored
    theme is "dark" or "light" as [darkMode] says, the body carries the
    attribute [data-bs-theme="dark"] exactly in dark mode, and no other
    key of the storage has been touched. *)
Theorem theme_is_kept_consistent
    (storage attrs : gmap (list N) (list N)) (clicks : list bool) :
  Theme.consistent (Theme.visit storage attrs clicks)
  /\ (forall k : list N,
        k <> lit "theme" ->
        Theme.localStorage (Theme.visit storage attrs clicks) !! k
        = storage !! k).
Proof.
  unfold Theme.visit. split.
  - apply fold_toggle_consistent, mount_consistent.
  - intros k Hk. rewrite (fold_toggle_others _ _ k Hk).
    apply mount_others, Hk.
Qed.

Lemma theme_is_kept_consistent_witness :
  Theme.localStorage
    (Theme.visit {[ lit "token" := lit "abc" ]} ∅ [true; false; true])
    !! lit "token"
  = Some (lit "abc").
Proof.
  rewrite (proj2 (theme_is_kept_consistent
                    {[ lit "token" := lit "abc" ]} ∅ [true; false; true])
             (lit "token")).
  - vm_compute. reflexivity.
  - vm_compute. discriminate.
Defined.


(** * The years of a request, for every text of the year fields *)

Section YearReading.

Lemma digits_prefix_leading (u : js_string) :
  digits_prefix 10 u = map (fun c => Z.of_N c - 48) (leading_digits u).
Proof.
  induction u as [|c r IH]; [reflexivity|]. simpl.
  destruct (is_dec_digit c) eqn:Ec.
  - rewrite (dec_digit_radix c Ec), IH. reflexivity.
  - rewrite (radix_digit_not_decimal c Ec). reflexivity.
Qed.

Lemma leading_digits_all (u : js_string) :
  Forall (fun c => is_dec_digit c = true) (leading_digits u).
Proof.
  induction u as [|c r IH]; simpl; [constructor|].
  destruct (is_dec_digit c) eqn:Ec; constructor; assumption.
Qed.

Lemma decimal_reading (sign : Z) (u : js_string) :
  match digits_prefix 10 u with
  | [] => NaN
  | d :: ds' => number_of_int (sign * math_int 10 (d :: ds'))
  end
  = match leading_digits u with
    | [] => NaN
    | c :: r => number_of_int (sign * decimal (c :: r))
    end.
Proof.
  rewrite digits_prefix_leading.
  destruct (leading_digits u) as [|c r]; [reflexivity|].
  simpl map. unfold math_int.
  change (fold_left (fun a d => a * 10 + d)
            (Z.of_N c - 48 :: map (fun c0 => Z.of_N c0 - 48) r) 0)
    with (fold_left (fun a d => a * 10 + d)
            (map (fun c0 => Z.of_N c0 - 48) (c :: r)) 0).
  rewrite math_int_decimal, Z.mul_0_l, Z.add_0_l. reflexivity.
Qed.

Lemma parse_tail_reading (sign : Z) (u : js_string) :
  parse_tail sign u
  = if has_hex_prefix u then
      match digits_prefix 16 (drop 2 u) with
      | [] => NaN
      | d :: ds' => number_of_int (sign * math_int 16 (d :: ds'))
      end
    else
      match leading_digits u with
      | [] => NaN
      | c :: r => number_of_int (sign * decimal (c :: r))
      end.
Proof.
  unfold parse_tail, has_hex_prefix.
  destruct u as [|c [|x r]]; try apply (decimal_reading sign).
  destruct ((c =? 48)%N && ((x =? 120)%N || (x =? 88)%N));
    [reflexivity | apply (decimal_reading sign)].
Qed.

Lemma parseInt_reading (y : js_string) :
  parseInt y = parse_tail (sign_of y) (unsigned_part y).
Proof.
  rewrite parseInt_unfold. unfold sign_of, unsigned_part.
  destruct (trimStart y) as [|c r]; [reflexivity|].
  destruct (c =? 45)%N; [reflexivity|].
  destruct (c =? 43)%N; reflexivity.
Qed.

Lemma year_field_as_described (y : js_string) :
  year_field y = year_as_described y.
Proof.
  destruct y as [|c0 r0]; [reflexivity|].
  unfold year_field, year_as_described.
  rewrite parseInt_reading, parse_tail_reading.
  destruct (has_hex_prefix (unsigned_part (c0 :: r0))); reflexivity.
Qed.

Lemma sign_of_cases (y : js_string) : sign_of y = 1 \/ sign_of y = -1.
Proof.
  unfold sign_of. destruct (trimStart y) as [|c r]; [left; reflexivity|].
  destruct (c =? 45)%N; [right | left]; reflexivity.
Qed.

Lemma reading_is_exact (y : js_string) :
  (length (leading_digits (unsigned_part y)) <= 15)%nat ->
  number_of_int (sign_of y * decimal (leading_digits (unsigned_part y)))
  = Num (sign_of y * decimal (leading_digits (unsigned_part y))).
Proof.
  intros Hlen.
  pose proof (decimal_bounds _ (leading_digits_all (unsigned_part y))) as Hb.
  assert (Hpow : 10 ^ Z.of_nat (length (leading_digits (unsigned_part y)))
                 <= 10 ^ 15) by (apply Z.pow_le_mono_r; lia).
  change (10 ^ 15) with 1000000000000000 in Hpow.
  unfold number_of_int.
  replace (Z.abs (sign_of y * decimal (leading_digits (unsigned_part y)))
           <? 2 ^ 53) with true; [reflexivity|].
  symmetry. apply Z.ltb_lt. change (2 ^ 53) with 9007199254740992.
  destruct (sign_of_cases y) as [-> | ->]; lia.
Qed.

Lemma digitless_year (y : js_string) :
  y <> [] ->
  has_hex_prefix (unsigned_part y) = false ->
  leading_digits (unsigned_part y) = [] ->
  year_as_described y = Val NaN.
Proof.
  intros Hne Hhex Hld. destruct y as [|c0 r0]; [congruence|].
  unfold year_as_described. rewrite Hhex, Hld. reflexivity.
Qed.

End YearReading.

(** C7, amended: [handleSearch] validates no year.  With a non-blank
    query the request is always sent and no signal is raised.  An empty
    year field gives [null]; a non-empty one is read by [parseInt]: after
    leading white space and one optional sign, the leading run of decimal
    digits is taken (a text starting [0x] there is read as hexadecimal).
    With no leading digit the value put in the object given to
    [axios.post] is NaN, which the JSON body carries as [null]; otherwise
    it is the integer those digits denote, with its sign, whatever text
    follows them: exact up to 15 digits, rounded to the nearest double
    beyond, never range-checked or clamped. *)
Theorem years_parsed_without_validation (s : state) :
  trim (query s) <> [] ->
  handleSearch s = [PreventDefault; SetLoading true; AxiosPost (searchData s)]
  /\ existsb is_signal (handleSearch s) = false
  /\ SearchData.year_from (searchData s) = year_as_described (yearFrom s)
  /\ SearchData.year_to (searchData s) = year_as_described (yearTo s)
  /\ (forall y : js_string,
        (length (leading_digits (unsigned_part y)) <= 15)%nat ->
        number_of_int (sign_of y * decimal (leading_digits (unsigned_part y)))
        = Num (sign_of y * decimal (leading_digits (unsigned_part y))))
  /\ (forall y : js_string,
        y <> [] ->
        has_hex_prefix (unsigned_part y) = false ->
        leading_digits (unsigned_part y) = [] ->
        year_as_described y = Val NaN
        /\ json_year (year_as_described y) = Null).
Proof.
  intros H. pose proof (handleSearch_nonblank s H) as Hs.
  split; [exact Hs|]. split; [rewrite Hs; reflexivity|].
  split; [apply year_field_as_described|].
  split; [apply year_field_as_described|].
  split; [exact reading_is_exact|].
  intros y Hne Hhex Hld. rewrite (digitless_year y Hne Hhex Hld).
  split; reflexivity.
Qed.

Lemma years_parsed_without_validation_witness :
  handleSearch (ui odd_years)
  = [PreventDefault; SetLoading true; AxiosPost (searchData (ui odd_years))]
  /\ SearchData.year_from (searchData (ui odd_years)) = Val NaN
  /\ SearchData.year_to (searchData (ui odd_years)) = Val (Num 1800)
  /\ year_as_described (lit "2020abc") = Val (Num 2020)
  /\ year_as_described (lit "-abc") = Val NaN
  /\ json_year (year_as_described (lit " abc")) = Null.
Proof.
  destruct (years_parsed_without_validation (ui odd_years))
    as (H1 & _ & H3 & H4 & H5 & H6).
  - vm_compute. discriminate.
  - split; [exact H1|]. split; [exact H3|]. split; [exact H4|].
    split; [|split].
    + change (year_as_described (lit "2020abc"))
        with (Val (number_of_int
                     (sign_of (lit "2020abc")
                      * decimal (leading_digits
                                   (unsigned_part (lit "2020abc")))))).
      rewrite H5; [reflexivity | vm_compute; lia].
    + apply (H6 (lit "-abc")); [vm_compute; discriminate | |];
        vm_compute; reflexivity.
    + apply (H6 (lit " abc")); [vm_compute; discriminate | |];
        vm_compute; reflexivity.
Defined.

(** C8, amended: every request sent carries the trimmed, non-empty query
    text and the limit 20; each year is what its own field reads as
    ([null] for an empty field), whatever the other field holds: the two
    years are never compared, so when both are present the request is
    sent with both as read, in whichever order they stand, and no
    validation failure is raised. *)
Theorem request_sent_for_any_year_order (w : world) :
  trim (query (ui w)) <> [] ->
  exists d : SearchData.t,
    emitted w (step w Submit) = [PreventDefault; SetLoading true; AxiosPost d]
    /\ inflight (step w Submit) !! fresh w = Some (ReqSearch d)
    /\ SearchData.query d = trim (query (ui w))
    /\ SearchData.query d <> []
    /\ SearchData.limit d = 20
    /\ SearchData.year_from d = year_as_described (yearFrom (ui w))
    /\ SearchData.year_to d = year_as_described (yearTo (ui w))
    /\ raises_signal w Submit = false
    /\ (is_year_digits (yearFrom (ui w)) = true ->
        is_year_digits (yearTo (ui w)) = true ->
        SearchData.year_from d = Val (Num (decimal (yearFrom (ui w))))
        /\ SearchData.year_to d = Val (Num (decimal (yearTo (ui w))))).
Proof.
  intros Hq. exists (searchData (ui w)).
  unfold raises_signal. rewrite (step_submit_nonblank w Hq), emitted_run.
  split; [reflexivity|].
  split; [simpl; apply lookup_insert_eq|].
  split; [reflexivity|]. split; [exact Hq|]. split; [reflexivity|].
  split; [apply year_field_as_described|].
  split; [apply year_field_as_described|].
  split; [reflexivity|].
  intros Hf Ht. split; apply year_field_digits; assumption.
Qed.

Lemma request_sent_for_any_year_order_witness :
  exists d : SearchData.t,
    inflight (step reversed_years Submit) !! fresh reversed_years
    = Some (ReqSearch d)
    /\ SearchData.query d = lit "ml"
    /\ SearchData.year_from d = Val (Num 2020)
    /\ SearchData.year_to d = Val (Num 2010)
    /\ SearchData.limit d = 20.
Proof.
  destruct (request_sent_for_any_year_order reversed_years)
    as (d & _ & Hd & Hq & _ & Hl & _ & _ & _ & Hy).
  - vm_compute. discriminate.
  - destruct Hy as [Hf Ht]; [vm_compute; reflexivity ..|].
    exists d. split; [exact Hd|]. split; [exact Hq|].
    split; [exact Hf|]. split; [exact Ht | exact Hl].
Defined.

(** X4: a non-empty year field with no leading digit after white space
    and sign (such as ".5", which a number input accepts) is put in the
    request object as NaN, and in the JSON body it is [null], exactly as
    an empty year field is: the year filter is dropped without notice. *)
Theorem digitless_year_is_dropped (y : js_string) :
  y <> [] ->
  has_hex_prefix (unsigned_part y) = false ->
  leading_digits (unsigned_part y) = [] ->
  year_field y = Val NaN
  /\ json_year (year_field y) = json_year (year_field []).
Proof.
  intros Hne Hhex Hld.
  rewrite year_field_as_described, (digitless_year y Hne Hhex Hld).
  split; reflexivity.
Qed.

Lemma digitless_year_is_dropped_witness :
  year_field (lit ".5") = Val NaN
  /\ json_year (year_field (lit ".5")) = json_year (year_field []).
Proof.
  apply (digitless_year_is_dropped (lit ".5"));
    [vm_compute; discriminate | vm_compute; reflexivity ..].
Defined.

(** * Clearing the history, with other requests in flight *)

Section Pending.

Lemma steps_fresh_ok (es : list event) (w : world) :
  fresh_ok w -> fresh_ok (steps w es).
Proof.
  revert w. induction es as [|e es IH]; intros w Hf; [exact Hf|].
  change (steps w (e :: es)) with (steps (step w e) es).
  apply IH, step_fresh_ok, Hf.
Qed.

(** A history fetch stays in flight until its own reply arrives. *)
Lemma fetch_stays_in_flight (w : world) (k : nat) (e : event) :
  fresh_ok w ->
  inflight w !! k = Some ReqHistory ->
  is_history_reply_to k e = false ->
  inflight (step w e) !! k = Some ReqHistory.
Proof.
  intros Hf Hk He.
  event_cases w e; simpl; simpl in He;
    repeat first
      [ exact Hk
      | rewrite lookup_insert_ne
          by (intros Heq; rewrite <- Heq in Hk;
              rewrite (Hf _ (le_n _)) in Hk; discriminate)
      | rewrite lookup_delete_ne
          by (intros Heq;
              first [ rewrite <- Heq in Hk; rewrite Ei in Hk; discriminate
                    | rewrite Heq, Nat.eqb_refl in He; discriminate ]) ].
Qed.

Lemma fetch_stays_through (es : list event) (w : world) (k : nat) :
  fresh_ok w ->
  inflight w !! k = Some ReqHistory ->
  forallb (fun e => negb (is_history_reply_to k e)) es = true ->
  inflight (steps w es) !! k = Some ReqHistory.
Proof.
  revert w. induction es as [|e es IH]; intros w Hf Hk Hes; [exact Hk|].
  simpl in Hes. apply andb_true_iff in Hes as [He Hes].
  apply negb_true_iff in He.
  change (steps w (e :: es)) with (steps (step w e) es).
  apply IH; [apply step_fresh_ok, Hf | | exact Hes].
  apply fetch_stays_in_flight; assumption.
Qed.

End Pending.

(** C9, amended: [clearHistory] requests deletion at the store.  When the
    deletion succeeds, the cached list is emptied at once and a refresh is
    started; whatever else happens meanwhile, that refresh stays in flight
    until its reply arrives, and then the cache becomes the list the store
    returned (a failed refresh leaves the component state as it is).  The
    cache is not guarded against other history fetches: a fulfilled reply
    to any fetch in flight, also one issued before the clear, replaces it
    when it arrives.  When the deletion fails, the error is only logged:
    no refresh is made and the component state is unchanged. *)
Theorem clearHistory_refreshes_after_success :
  (forall w : world,
     emitted w (step w ClickClear) = [AxiosDelete]
     /\ inflight (step w ClickClear) !! fresh w = Some ReqDelete)
  /\ (forall (w : world) (i : nat),
        inflight w !! i = Some ReqDelete ->
        let w1 := step w (DeleteSettled i true) in
        emitted w w1 = [SetSearchHistory []; AxiosGet]
        /\ searchHistory (ui w1) = []
        /\ (forall n : nat, display n (ui w1) = [])
        /\ inflight w1 !! fresh w = Some ReqHistory)
  /\ (forall (es0 : list event) (i : nat) (es : list event),
        let w := steps initial_world es0 in
        inflight w !! i = Some ReqDelete ->
        forallb (fun e => negb (is_history_reply_to (fresh w) e)) es = true ->
        let w2 := steps (step w (DeleteSettled i true)) es in
        inflight w2 !! fresh w = Some ReqHistory
        /\ (forall (h : list HistoryEntry.t) (n : nat),
              display n (ui (step w2 (HistorySettled (fresh w) (Some h))))
              = take n h)
        /\ ui (step w2 (HistorySettled (fresh w) None)) = ui w2)
  /\ (forall (w : world) (j : nat) (h : list HistoryEntry.t) (n : nat),
        inflight w !! j = Some ReqHistory ->
        display n (ui (step w (HistorySettled j (Some h)))) = take n h)
  /\ (forall (w : world) (i : nat),
        inflight w !! i = Some ReqDelete ->
        let w2 := step w (DeleteSettled i false) in
        emitted w w2 = [ConsoleError (lit "Error clearing history:")]
        /\ sends_request w (DeleteSettled i false) = false
        /\ ui w2 = ui w
        /\ inflight w2 = delete i (inflight w)).
Proof.
  split; [|split; [|split; [|split]]].
  - intros w. split; [apply (emitted_run clearHistory w)|].
    simpl. apply lookup_insert_eq.
  - intros w i H w1. subst w1. rewrite (step_delete_settled w i true H).
    split; [apply emitted_settle|]. split; [reflexivity|].
    split; [intros n; unfold display; simpl; apply take_nil|].
    simpl. apply lookup_insert_eq.
  - intros es0 i es w H Hes w2.
    assert (Hf : fresh_ok w)
      by (apply steps_fresh_ok, initial_fresh_ok).
    assert (Hget : inflight w2 !! fresh w = Some ReqHistory).
    { apply fetch_stays_through; [apply step_fresh_ok, Hf | | exact Hes].
      rewrite (step_delete_settled w i true H). simpl.
      apply lookup_insert_eq. }
    split; [exact Hget|]. split.
    + intros h n. rewrite (step_history_settled w2 _ _ Hget). reflexivity.
    + rewrite (step_history_settled w2 _ _ Hget). reflexivity.
  - intros w j h n H. rewrite (step_history_settled w j _ H). reflexivity.
  - intros w i H w2. subst w2. unfold sends_request.
    rewrite (step_delete_settled w i false H), emitted_settle.
    repeat split.
Qed.

Lemma clearHistory_refreshes_after_success_witness :
  display 10
    (ui (step (steps (step clear_pending (DeleteSettled 1 true))
                 [Edit (SetQuery (lit "trees")); Submit])
           (HistorySettled 2 (Some []))))
  = take 10 []
  /\ ui (step clear_pending (DeleteSettled 1 false)) = ui clear_pending.
Proof.
  destruct clearHistory_refreshes_after_success as (_ & _ & H3 & _ & H5).
  split.
  - refine (proj1 (proj2
              (H3 [Mount; HistorySettled 0 (Some [entry1]); ClickClear]
                 1%nat [Edit (SetQuery (lit "trees")); Submit] _ _))
              [] 10%nat).
    + vm_compute. reflexivity.
    + vm_compute. reflexivity.
  - refine (proj1 (proj2 (proj2 (H5 clear_pending 1%nat _)))).
    vm_compute. reflexivity.
Defined.

(** * The result header *)

Section Header.

Lemma step_keeps_header (w : world) (e : event) :
  reply_has_info e = true ->
  (shows_results (ui w) = true -> shows_header (ui w) = true) ->
  shows_results (ui (step w e)) = true -> shows_header (ui (step w e)) = true.
Proof.
  intros He H.
  event_cases w e; try exact H.
  intros _. simpl in He. unfold shows_header. simpl.
  destruct (SearchResponse.query_info data); [discriminate ..|reflexivity].
Qed.

Lemma steps_keep_header (es : list event) (w : world) :
  forallb reply_has_info es = true ->
  (shows_results (ui w) = true -> shows_header (ui w) = true) ->
  shows_results (ui (steps w es)) = true ->
  shows_header (ui (steps w es)) = true.
Proof.
  revert w. induction es as [|e es IH]; intros w Hes Hw; [exact Hw|].
  simpl in Hes. apply andb_true_iff in Hes as [He Hes].
  change (steps w (e :: es)) with (steps (step w e) es).
  apply IH; [exact Hes|]. apply step_keeps_header; assumption.
Qed.

End Header.

(** X17: in every run of the page in which each fulfilled search reply
    carries a query info, paper cards are never rendered without the
    result header above them.  The condition is needed: a fulfilled reply
    with papers whose query info is [null] or absent makes the page render
    the cards with no header. *)
Theorem results_come_with_header :
  (forall es : list event,
     forallb reply_has_info es = true ->
     shows_results (ui (steps initial_world es)) = true ->
     shows_header (ui (steps initial_world es)) = true)
  /\ (forall (w : world) (i : nat) (d : SearchData.t)
             (data : SearchResponse.t),
        inflight w !! i = Some (ReqSearch d) ->
        SearchResponse.papers data <> [] ->
        reply_has_info (SearchSettled i (Some data)) = false ->
        shows_results (ui (step w (SearchSettled i (Some data)))) = true
        /\ shows_header (ui (step w (SearchSettled i (Some data)))) = false).
Proof.
  split.
  - intros es Hes. apply steps_keep_header; [exact Hes|].
    intros Hr. discriminate.
  - intros w i d data H Hp Hinfo.
    rewrite (step_search_settled w i d _ H).
    unfold shows_results, shows_header. simpl in *.
    split.
    + destruct (SearchResponse.papers data); [congruence | reflexivity].
    + destruct (SearchResponse.query_info data);
        [reflexivity | reflexivity | discriminate].
Qed.

Lemma results_come_with_header_witness :
  shows_header (ui race_B_replied) = true
  /\ shows_header
       (ui (step second_search_pending
              (SearchSettled 2
                 (Some (SearchResponse.Build [paperB] 1 Null))))) = false.
Proof.
  destruct results_come_with_header as [H1 H2]. split.
  - refine (H1 race_events _ _); vm_compute; reflexivity.
  - refine (proj2 (H2 second_search_pending 2%nat
                     (SearchData.Build (lit "trees") Null Null Null Null 20)
                     (SearchResponse.Build [paperB] 1 Null) _ _ _)).
    + vm_compute. reflexivity.
    + discriminate.
    + reflexivity.
Defined.
